(** * Quantized elementwise multiply: the kernel of [quantization_computation.ipynb]

    A shallow embedding of the notebook's [multiply] function and of the
    numeric helpers it calls, with the properties its specification states.

    - scales are IEEE 754 binary64 numbers, modelled by the Standard
      Library's [spec_float] with [prec = 53] and [emax = 1024];
    - float arithmetic raises nothing: an overflow gives an infinity, and a
      division by zero an infinity or a NaN, as NumPy's [float64] does (a
      zero scale is outside the invariant of section 3);
    - the conversion of a float to an integer type raises nothing either:
      where C leaves its result undefined, the result is the platform's,
      a parameter of the model;
    - NumPy's fixed-width integers are [Z] with the wrap-around written out;
    - tensors live in a store indexed by object identity, so that a call
      whose output tensor is also one of its inputs is modelled as such;
    - the kernel runs in a small state-and-exception monad over that store;
    - the modules [quantization] and [quantization_utils] the notebook
      imports are not among the sources: the class [Tensor] and the helpers
      [saturate_rounding_doubling_multiply] and [apply_shift] follow the
      specification's sections 3, 4.2 and 4.3. *)

From Stdlib Require Import ZArith QArith Qround Qabs Qpower Lia Lqa Bool.
From Stdlib Require Import Floats.SpecFloat.
From stdpp Require Import gmap list.

Local Open Scope Z_scope.

(** ** Fixed-width integers *)

(** The [datatype] argument of [multiply]: the two NumPy types the function
    recognises, and any other type a caller may pass. *)
Inductive datatype :=
  | np_int32
  | np_int16
  | np_other (bits : Z).

(** [multiplier_shift] as set by the [if]/[elif] chain; [None] is the
    [else: assert False] branch. *)
Definition multiplier_shift (dt : datatype) : option Z :=
  match dt with
  | np_int32 => Some 31
  | np_int16 => Some 15
  | np_other _ => None
  end.

(** Number of bits of the integers of a type. *)
Definition width (dt : datatype) : Z :=
  match dt with
  | np_int32 => 32
  | np_int16 => 16
  | np_other bits => bits
  end.

Definition int_min (N : Z) : Z := - 2 ^ (N - 1).
Definition int_max (N : Z) : Z := 2 ^ (N - 1) - 1.

Definition in_range (N z : Z) : bool :=
  (int_min N <=? z) && (z <=? int_max N).

(** Two's complement reduction to [N] bits: what [datatype(x)] and the
    fixed-width arithmetic of NumPy scalars do to an integer [x]. *)
Definition wrap (N z : Z) : Z :=
  (z + 2 ^ (N - 1)) mod 2 ^ N - 2 ^ (N - 1).

Definition clamp (z lo hi : Z) : Z := Z.min (Z.max z lo) hi.

(** ** Binary64 *)

Definition prec : Z := 53.
Definition emax : Z := 1024.

Definition f64_mul : spec_float -> spec_float -> spec_float := SFmul prec emax.
Definition f64_div : spec_float -> spec_float -> spec_float := SFdiv prec emax.

(** Conversion of a Python integer to a float, as in [float * int]. *)
Definition f64_of_int (z : Z) : spec_float := binary_normalize prec emax z 0 false.

Definition f64_one : spec_float := S754_finite false (2 ^ 52) (-52).

(** A finite binary64 number in canonical form, or a zero. *)
Definition f64_finite (x : spec_float) : bool :=
  match x with
  | S754_zero _ => true
  | S754_finite _ m e => bounded prec emax m e
  | _ => false
  end.

Definition f64_positive (x : spec_float) : bool :=
  match x with
  | S754_finite false m e => bounded prec emax m e
  | _ => false
  end.

(** A float other than the two zeros. *)
Definition f64_nonzero (x : spec_float) : bool :=
  match x with
  | S754_zero _ => false
  | _ => true
  end.

(** The rational number a float stands for (zero for infinities and NaN,
    which stand for none). *)
Definition f64_value (x : spec_float) : Q :=
  match x with
  | S754_finite s m e => inject_Z (cond_Zopp s (Z.pos m)) * (2 ^ e)%Q
  | _ => 0%Q
  end.

(** [np.frexp]: mantissa in [[0.5, 1)] and exponent for a finite non-zero
    argument; zeros, infinities and NaN come back unchanged with exponent 0. *)
Definition np_frexp (x : spec_float) : spec_float * Z :=
  match x with
  | S754_finite _ _ _ => SFfrexp prec emax x
  | _ => (x, 0)
  end.

(** Exceptions a run can end with.  [ShapeMismatchError] and [DomainError]
    are the specification's error kinds; [NameError] is a reference to no
    object. *)
Inductive exn :=
  | AssertionError
  | IndexError
  | NameError
  | ShapeMismatchError
  | DomainError.

(** The integer part of a float, rounding toward zero. *)
Definition f64_trunc (x : spec_float) : option Z :=
  match x with
  | S754_zero _ => Some 0
  | S754_finite s m e => Some (cond_Zopp s (Z.shiftl (Z.pos m) e))
  | _ => None
  end.

(** The conversion of a float to an integer type raises nothing.  For an
    infinity, a NaN or a float whose integer part the type cannot hold, C
    leaves the result undefined and NumPy returns what the platform's
    conversion gives, with a warning: that raw result, [invalid_cast N x]
    for the type of width [N] and the float [x], is a parameter. *)
Class Platform := {
  invalid_cast : Z -> spec_float -> Z
}.

(** An instance, for the concrete calls below: the conversion instruction of
    x86-64 answers 0x80000000, as a 32-bit integer, to whatever it cannot
    convert. *)
Definition x86_64_invalid_cast (N : Z) (x : spec_float) : Z := - 2 ^ 31.

Instance x86_64 : Platform := {| invalid_cast := x86_64_invalid_cast |}.

(** [datatype(x)] for a float [x]: the C conversion, which truncates; the
    result is a value of the type whatever the float. *)
Definition np_int_of_float `{Platform} (N : Z) (x : spec_float) : Z :=
  match f64_trunc x with
  | Some z => if in_range N z then z else wrap N (invalid_cast N x)
  | None => wrap N (invalid_cast N x)
  end.

(** ** The fixed-point decomposition at the head of [multiply]

    [multipler_float, shift = np.frexp(real_scale)], the choice of
    [multiplier_shift] and
    [multiplier = datatype(multipler_float * (2 ** multiplier_shift))].  The
    only exception is the [assert False] of an unrecognised datatype. *)
Definition decompose `{Platform} (dt : datatype) (real_scale : spec_float) : exn + (Z * Z) :=
  let '(multipler_float, shift) := np_frexp real_scale in
  match multiplier_shift dt with
  | None => inl AssertionError
  | Some ms =>
      inr (np_int_of_float (width dt)
             (f64_mul multipler_float (f64_of_int (2 ^ ms))),
           shift)
  end.

(** The decomposition as the specification words it (section 4.1): the
    multiplier is the mantissa scaled by [2^(N-1)] and rounded to nearest,
    and a multiplier rounded up to [2^(N-1)] is halved, with the shift
    incremented by one. *)
Definition round_nearest (q : Q) : Z := Qfloor (q + (1 # 2)).

Definition spec_decompose (N : Z) (real_scale : spec_float) : Z * Z :=
  let '(mantissa, shift) := np_frexp real_scale in
  let multiplier := round_nearest (f64_value mantissa * 2 ^ (N - 1)) in
  if multiplier =? 2 ^ (N - 1)
  then (multiplier / 2, shift + 1)
  else (multiplier, shift).

(** ** The helpers of [quantization_utils] *)

(** Modelled from the spec: the rounding step of
    [saturate_rounding_doubling_multiply], imported from
    [quantization_utils], which is not among the sources.  Section 4.2
    (SaturatingRoundingMultiplyHigh): the product is taken at double width
    and rounded to nearest (half up) before the shift by [N-1] that keeps
    its high half. *)
Definition rounded_high_half (a b N : Z) : Z :=
  Z.shiftr (a * b + 2 ^ (N - 2)) (N - 1).

(** Modelled from the spec: the value [saturate_rounding_doubling_multiply]
    returns, section 4.2: the rounded high half clamped to
    [[-2^(N-1), 2^(N-1) - 1]]. *)
Definition multiply_high (a b N : Z) : Z :=
  clamp (rounded_high_half a b N) (int_min N) (int_max N).

(** Modelled from the spec: [saturate_rounding_doubling_multiply] with the
    precondition of section 4.2 on its operands, whose violation is a
    [DomainError]. *)
Definition saturate_rounding_doubling_multiply (a b : Z) (dt : datatype) : exn + Z :=
  let N := width dt in
  if in_range N a && in_range N b
  then inr (multiply_high a b N)
  else inl DomainError.

(** Modelled from the spec: [apply_shift], imported from
    [quantization_utils], which is not among the sources.  Section 4.3
    (RoundingShift): a non-negative shift multiplies by [2^shift]; a negative
    one divides by [2^|shift|], adding the bias [2^(|shift|-1)] before the
    arithmetic right shift, on the magnitude, so that halves round away from
    zero for either sign.  No saturation. *)
Definition apply_shift (value shift : Z) : Z :=
  if 0 <=? shift then value * 2 ^ shift
  else
    let k := - shift in
    let rounded := Z.shiftr (Z.abs value + 2 ^ (k - 1)) k in
    if 0 <=? value then rounded else - rounded.

(** ** Tensors and the store *)

(** Modelled from the spec: the class [Tensor] of module [quantization],
    which is not among the sources.  Section 3: a flat buffer of integers, a
    scale and a zero-point; the kernel reads the three attributes [value],
    [scale] and [zero_point]. *)
Record Tensor := {
  value : list Z;
  scale : spec_float;
  zero_point : Z
}.

(** The tensor [t] with its buffer holding [vs]. *)
Definition set_value (t : Tensor) (vs : list Z) : Tensor :=
  {| value := vs; scale := scale t; zero_point := zero_point t |}.

(** Objects are named by their identity; two arguments of a call that are
    the same object have the same name. *)
Abbreviation loc := nat.

Abbreviation store := (gmap nat Tensor).

(** The state of a run: the objects, and the log of the assignments to
    buffer elements made so far, oldest first.  The log is not data of the
    program; it records which elements were written, and in which order. *)
Record state := {
  heap : store;
  writes : list (loc * nat)
}.

(** ** State and exceptions *)

Definition M (A : Type) : Type := state -> state * (exn + A).

Definition ret {A} (a : A) : M A := fun st => (st, inr a).

Definition raise {A} (e : exn) : M A := fun st => (st, inl e).

Definition bind {A B} (m : M A) (k : A -> M B) : M B :=
  fun st =>
    match m st with
    | (st', inr a) => k a st'
    | (st', inl e) => (st', inl e)
    end.

Definition lift {A} (r : exn + A) : M A := fun st => (st, r).

Notation "'let*' x ':=' m 'in' k" := (bind m (fun x => k))
  (at level 10, x name, m at level 100, k at level 200).

(** Evaluation of a name to the object it denotes. *)
Definition get_tensor (t : loc) : M Tensor :=
  fun st =>
    match heap st !! t with
    | Some x => (st, inr x)
    | None => (st, inl NameError)
    end.

(** [t.value.ravel()[i]] *)
Definition read_value (t : loc) (i : nat) : M Z :=
  let* x := get_tensor t in
  match value x !! i with
  | Some v => ret v
  | None => raise IndexError
  end.

(** [t.value.ravel()[i] = v]: in place, through the view [ravel] gives of a
    flat buffer; an index past the end raises and writes nothing. *)
Definition write_value (t : loc) (i : nat) (v : Z) : M unit :=
  fun st =>
    match heap st !! t with
    | Some x =>
        if (i <? length (value x))%nat
        then ({| heap := <[t := set_value x (<[i := v]> (value x))]> (heap st);
                 writes := writes st ++ [(t, i)] |}, inr tt)
        else (st, inl IndexError)
    | None => (st, inl NameError)
    end.

(** [for i in range(n): body(i)], over the list of the indices. *)
Fixpoint for_range (indices : list nat) (body : nat -> M unit) : M unit :=
  match indices with
  | [] => ret tt
  | i :: rest => let* _ := body i in for_range rest body
  end.

(** ** The kernel *)

(** [datatype(x)] for an integer [x], and the arithmetic of that type. *)
Definition np_cast (dt : datatype) (z : Z) : Z := wrap (width dt) z.

Definition np_int8 (z : Z) : Z := wrap 8 z.

(** One output element, from the two input elements: the arithmetic of the
    loop body between its reads and its write. *)
Definition requantize (dt : datatype) (multiplier shift : Z)
    (zp1 zp2 zpo v1 v2 : Z) : exn + Z :=
  let lhs_value := np_cast dt v1 in
  let lhs_value := np_cast dt (lhs_value - zp1) in
  let rhs_value := np_cast dt v2 in
  let rhs_value := np_cast dt (rhs_value - zp2) in
  let temp := np_cast dt (lhs_value * rhs_value) in
  match saturate_rounding_doubling_multiply temp multiplier dt with
  | inl e => inl e
  | inr product =>
      let output := apply_shift product shift in
      let output := output + zpo in
      inr (np_int8 (Z.min (Z.max output (-128)) 127))
  end.

(** The body of the loop of [multiply] at index [i]. *)
Definition multiply_body (tensor1 tensor2 output_tensor : loc) (dt : datatype)
    (multiplier shift : Z) (i : nat) : M unit :=
  let* v1 := read_value tensor1 i in
  let* t1 := get_tensor tensor1 in
  let* v2 := read_value tensor2 i in
  let* t2 := get_tensor tensor2 in
  let* t3 := get_tensor output_tensor in
  let* output :=
    lift (requantize dt multiplier shift
            (zero_point t1) (zero_point t2) (zero_point t3) v1 v2) in
  write_value output_tensor i output.

(** [real_scale = tensor1.scale * tensor2.scale / output_tensor.scale], in
    binary64 arithmetic.  Python's floats and NumPy's compute the same
    results but for a division by zero, which gives an infinity or a NaN
    with a warning in NumPy and raises [ZeroDivisionError] in Python; which
    of the two the scales are is the choice of the class [Tensor].  The
    value below is NumPy's; with an output scale other than zero, as the
    invariant [scale > 0] of section 3 has it, it is the value of both. *)
Definition real_scale (t1 t2 t3 : Tensor) : spec_float :=
  f64_div (f64_mul (scale t1) (scale t2)) (scale t3).

(** [multiply(tensor1, tensor2, output_tensor, datatype)] *)
Definition multiply `{Platform} (tensor1 tensor2 output_tensor : loc) (dt : datatype) : M unit :=
  let* t1 := get_tensor tensor1 in
  let* t2 := get_tensor tensor2 in
  let* t3 := get_tensor output_tensor in
  let* fixed := lift (decompose dt (real_scale t1 t2 t3)) in
  let '(multiplier, shift) := fixed in
  for_range (seq 0 (length (value t1)))
    (multiply_body tensor1 tensor2 output_tensor dt multiplier shift).

(** ** The values the statements speak of *)

(** The output element the kernel stores for the input elements [v1] and
    [v2]: steps 1 to 6 of section 4.4, the product of the two offsets
    reduced to the working width. *)
Definition quantized_product (dt : datatype) (multiplier shift : Z)
    (zp1 zp2 zpo v1 v2 : Z) : Z :=
  clamp (apply_shift
           (multiply_high (wrap (width dt) ((v1 - zp1) * (v2 - zp2)))
                          multiplier (width dt))
           shift + zpo)
        (-128) 127.

(** The same with the product of the offsets taken as it stands. *)
Definition spec_element (dt : datatype) (multiplier shift : Z)
    (zp1 zp2 zpo v1 v2 : Z) : Z :=
  clamp (apply_shift
           (multiply_high ((v1 - zp1) * (v2 - zp2)) multiplier (width dt))
           shift + zpo)
        (-128) 127.

(** The elements a run computes, in order, from the buffers of its inputs. *)
Definition outputs (dt : datatype) (multiplier shift : Z) (t1 t2 t3 : Tensor) : list Z :=
  zip_with (quantized_product dt multiplier shift
              (zero_point t1) (zero_point t2) (zero_point t3))
           (value t1) (value t2).

(** The log entries of the writes to the first [k] elements of [t]. *)
Definition written (t : loc) (k : nat) : list (loc * nat) :=
  map (pair t) (seq 0 k).

(** The state in which a run that reached the loop ends: the loop has gone
    through the [k] indices that lie within the three buffers. *)
Definition reached (t1 t2 t3 : Tensor) : nat :=
  length (value t1) `min` (length (value t2) `min` length (value t3)).

Definition final_state (output_tensor : loc) (dt : datatype) (multiplier shift : Z)
    (t1 t2 t3 : Tensor) (k : nat) (st : state) : state :=
  {| heap := <[output_tensor :=
                 set_value t3 (take k (outputs dt multiplier shift t1 t2 t3)
                               ++ drop k (value t3))]> (heap st);
     writes := writes st ++ written output_tensor k |}.

(** ** Concrete calls *)

(** A state holding the three tensors of a call under the names 0, 1 and 2,
    with nothing written yet. *)
Definition call_state (t1 t2 t3 : Tensor) : state :=
  {| heap := <[0%nat := t1]> (<[1%nat := t2]> (<[2%nat := t3]> ∅));
     writes := [] |}.

(** A state in which one tensor, named 0, is meant to serve both as the
    first input and as the output; the second input is named 1. *)
Definition in_place_state (t1 t2 : Tensor) : state :=
  {| heap := <[0%nat := t1]> (<[1%nat := t2]> ∅);
     writes := [] |}.

(** The buffer of the tensor named [t] once a run has ended in state [st]. *)
Definition buffer (t : loc) (st : state) : option (list Z) :=
  value <$> heap st !! t.

(** The scales of the specification's end-to-end scenario, 0.0351, 0.0094
    and 0.0527, and a negative scale, -0.5. *)
Definition f64_0351 : spec_float := S754_finite false 5058443101462541 (-57).
Definition f64_0094 : spec_float := S754_finite false 5418731071652181 (-59).
Definition f64_0527 : spec_float := S754_finite false 7594870411597604 (-57).
Definition f64_minus_half : spec_float := S754_finite true (2 ^ 52) (-53).

Definition scenario_lhs : Tensor :=
  {| value := [10; 127]; scale := f64_0351; zero_point := 2 |}.
Definition scenario_rhs : Tensor :=
  {| value := [-3; 127]; scale := f64_0094; zero_point := 0 |}.
Definition scenario_out : Tensor :=
  {| value := [0; 0]; scale := f64_0527; zero_point := -36 |}.

(** Tensors of scale 1 and zero-point [zp]. *)
Definition unit_tensor (values : list Z) (zp : Z) : Tensor :=
  {| value := values; scale := f64_one; zero_point := zp |}.

(** * Properties *)

(** ** Binary64 facts used by the decomposition *)
Lemma shr_fexp_low_zeros m e :
  digits2_pos m = 53%positive -> -1126 <= e ->
  shr_fexp prec emax (Z.pos (4503599627370496 * m)) e loc_Exact =
  ({| shr_m := Z.pos m; shr_r := false; shr_s := false |}, e + 52).
Proof.
  intros Hd He.
  cbv [Pos.mul].
  unfold shr_fexp, Zdigits2. cbn [digits2_pos]. rewrite Hd.
  replace (fexp prec emax (_ + e) - e) with 52.
  - reflexivity.
  - unfold fexp, emin, prec, emax. 
    change (Z.pos (Pos.succ _)) with 105. lia.
Qed.

Lemma shr_fexp_canonical m e :
  digits2_pos m = 53%positive -> -1074 <= e ->
  shr_fexp prec emax (Z.pos m) e loc_Exact =
  ({| shr_m := Z.pos m; shr_r := false; shr_s := false |}, e).
Proof.
  intros Hd He. unfold shr_fexp, Zdigits2. rewrite Hd.
  replace (fexp prec emax (53 + e) - e) with 0; [reflexivity|].
  unfold fexp, emin, prec, emax. lia.
Qed.

Lemma f64_mul_pow2 s m ms :
  digits2_pos m = 53%positive -> ms = 15 \/ ms = 31 ->
  f64_mul (S754_finite s m (-53)) (f64_of_int (2 ^ ms)) = S754_finite s m (ms - 53).
Proof.
  intros Hd Hms.
  assert (f64_of_int (2 ^ ms) = S754_finite false 4503599627370496 (ms - 52)) as ->
    by (destruct Hms as [-> | ->]; vm_compute; reflexivity).
  unfold f64_mul, SFmul. rewrite xorb_false_r.
  unfold binary_round_aux.
  rewrite (Pos.mul_comm m), shr_fexp_low_zeros by (trivial; lia).
  cbn [shr_m loc_of_shr_record round_nearest_even].
  rewrite shr_fexp_canonical by (trivial; lia).
  cbn [shr_m].
  replace (-53 + (ms - 52) + 52) with (ms - 53) by lia.
  destruct (Z.leb_spec (ms - 53) (emax - prec)); [reflexivity|].
  unfold emax, prec in *. lia.
Qed.

Lemma digits2_pos_bounds m :
  2 ^ (Z.pos (digits2_pos m) - 1) <= Z.pos m < 2 ^ Z.pos (digits2_pos m).
Proof.
  induction m as [m IH | m IH |]; cbn [digits2_pos].
  - rewrite Pos2Z.inj_succ, (Pos2Z.inj_xI m).
    replace (Z.succ (Z.pos (digits2_pos m)) - 1) with (Z.succ (Z.pos (digits2_pos m) - 1)) by lia.
    rewrite !Z.pow_succ_r by lia. lia.
  - rewrite Pos2Z.inj_succ, (Pos2Z.inj_xO m).
    replace (Z.succ (Z.pos (digits2_pos m)) - 1) with (Z.succ (Z.pos (digits2_pos m) - 1)) by lia.
    rewrite !Z.pow_succ_r by lia. lia.
  - cbn. lia.
Qed.

Lemma iter_xO_digits m k :
  digits2_pos (Pos.iter xO m k) = (digits2_pos m + k)%positive.
Proof.
  induction k as [| k IH] using Pos.peano_ind.
  - cbn. lia.
  - rewrite Pos.iter_succ. cbn [digits2_pos]. rewrite IH. lia.
Qed.

Lemma iter_xO_value m k :
  Z.pos (Pos.iter xO m k) = Z.pos m * 2 ^ Z.pos k.
Proof.
  induction k as [| k IH] using Pos.peano_ind.
  - cbn. lia.
  - rewrite Pos.iter_succ, (Pos2Z.inj_xO (Pos.iter xO m k)), IH, Pos2Z.inj_succ, Z.pow_succ_r by lia. lia.
Qed.

Lemma bounded_digits m e :
  bounded prec emax m e = true -> Z.pos (digits2_pos m) <= 53.
Proof.
  unfold bounded, canonical_mantissa, fexp, emin, prec, emax.
  intros H. apply andb_prop in H as [H _]. apply Z.eqb_eq in H. lia.
Qed.

(** What [np.frexp] returns on a finite non-zero float. *)
Lemma np_frexp_finite s m e :
  bounded prec emax m e = true ->
  exists m',
    np_frexp (S754_finite s m e) = (S754_finite s m' (-53), e + Z.pos (digits2_pos m)) /\
    digits2_pos m' = 53%positive /\
    Z.pos m' = Z.pos m * 2 ^ (53 - Z.pos (digits2_pos m)).
Proof.
  intros Hb. pose proof (bounded_digits _ _ Hb) as Hd.
  unfold np_frexp, SFfrexp. fold prec.
  destruct (Z.leb_spec prec (Z.pos (digits2_pos m))) as [Hle | Hlt]; unfold prec in *.
  - exists m. assert (Z.pos (digits2_pos m) = 53) as Heq by lia.
    rewrite Heq. split; [reflexivity | split; [lia | cbn; lia]].
  - remember (53 - Z.pos (digits2_pos m)) as d eqn:Hdd.
    destruct d as [| d | d]; try lia.
    exists (Pos.iter xO m d). cbn [Z.to_pos]. split; [| split].
    + f_equal; lia.
    + rewrite iter_xO_digits. lia.
    + apply iter_xO_value.
Qed.

Lemma supported_shift dt ms :
  multiplier_shift dt = Some ms -> ms = 15 \/ ms = 31.
Proof. destruct dt; cbn; intros [= <-]; auto. Qed.

Lemma supported_width dt ms :
  multiplier_shift dt = Some ms -> width dt = ms + 1.
Proof. destruct dt; cbn; intros [= <-]; reflexivity. Qed.

Lemma truncated_mantissa_range m ms :
  digits2_pos m = 53%positive -> ms = 15 \/ ms = 31 ->
  2 ^ (ms - 1) <= Z.pos m / 2 ^ (53 - ms) <= 2 ^ ms - 1.
Proof.
  intros Hd Hms. pose proof (digits2_pos_bounds m) as Hb. rewrite Hd in Hb.
  destruct Hms as [-> | ->]; cbn in Hb |- *.
  - split; [apply Z.div_le_lower_bound | apply Z.lt_le_pred, Z.div_lt_upper_bound]; lia.
  - split; [apply Z.div_le_lower_bound | apply Z.lt_le_pred, Z.div_lt_upper_bound]; lia.
Qed.

Lemma decompose_finite `{Platform} dt ms s m e :
  multiplier_shift dt = Some ms -> bounded prec emax m e = true ->
  exists m',
    np_frexp (S754_finite s m e) = (S754_finite s m' (-53), e + Z.pos (digits2_pos m)) /\
    digits2_pos m' = 53%positive /\
    Z.pos m' = Z.pos m * 2 ^ (53 - Z.pos (digits2_pos m)) /\
    decompose dt (S754_finite s m e) =
      inr (cond_Zopp s (Z.pos m' / 2 ^ (53 - ms)), e + Z.pos (digits2_pos m)).
Proof.
  intros Hdt Hb. destruct (np_frexp_finite s m e Hb) as (m' & Hfr & Hd & Hv).
  exists m'. repeat (split; [assumption |]).
  pose proof (supported_shift _ _ Hdt) as Hms.
  pose proof (truncated_mantissa_range m' ms Hd Hms) as Hr.
  unfold decompose. rewrite Hfr, Hdt, f64_mul_pow2 by assumption.
  rewrite (supported_width _ _ Hdt).
  unfold np_int_of_float, f64_trunc.
  rewrite Z.shiftl_div_pow2 by lia.
  replace (- (ms - 53)) with (53 - ms) by lia.
  assert (in_range (ms + 1) (cond_Zopp s (Z.pos m' / 2 ^ (53 - ms))) = true) as ->; [| reflexivity].
  unfold in_range, int_min, int_max. replace (ms + 1 - 1) with ms by lia.
  assert (0 < 2 ^ (ms - 1) /\ 2 ^ ms = 2 * 2 ^ (ms - 1)) by
    (destruct Hms as [-> | ->]; cbn; lia).
  destruct s; cbn [cond_Zopp]; apply andb_true_intro; split; apply Z.leb_le; lia.
Qed.

Lemma decompose_zero `{Platform} dt ms s :
  multiplier_shift dt = Some ms -> decompose dt (S754_zero s) = inr (0, 0).
Proof. destruct dt; cbn; intros [= <-]; destruct s; reflexivity. Qed.

Lemma two_neq_0 : ~ (2 == 0)%Q.
Proof. discriminate. Qed.

Lemma pow2_pos z : (0 < 2 ^ z)%Q.
Proof. apply Qpower_0_lt. reflexivity. Qed.

Lemma inject_pow2 k : 0 <= k -> (inject_Z (2 ^ k) == 2 ^ k)%Q.
Proof. intros Hk. apply (Zpower_Qpower 2 k Hk). Qed.

Lemma f64_value_frexp s m e mant shift :
  bounded prec emax m e = true ->
  np_frexp (S754_finite s m e) = (mant, shift) ->
  (f64_value (S754_finite s m e) == f64_value mant * 2 ^ shift)%Q.
Proof.
  intros Hb Hfr. pose proof (bounded_digits _ _ Hb) as Hd.
  destruct (np_frexp_finite s m e Hb) as (m' & Hfr' & _ & Hv).
  rewrite Hfr' in Hfr. injection Hfr as <- <-.
  cbn [f64_value].
  assert (cond_Zopp s (Z.pos m') =
          cond_Zopp s (Z.pos m) * 2 ^ (53 - Z.pos (digits2_pos m))) as ->
    by (destruct s; cbn [cond_Zopp]; lia).
  rewrite inject_Z_mult, inject_pow2 by lia.
  rewrite <- !Qmult_assoc, <- !Qpower_plus by apply two_neq_0.
  replace (53 - Z.pos (digits2_pos m) + (-53 + (e + Z.pos (digits2_pos m)))) with e by lia.
  reflexivity.
Qed.

Lemma mantissa_scaled m ms :
  0 <= ms <= 53 ->
  (f64_value (S754_finite false m (-53)) * 2 ^ ms ==
   inject_Z (Z.pos m) / inject_Z (2 ^ (53 - ms)))%Q.
Proof.
  intros Hms. cbn [f64_value cond_Zopp].
  rewrite inject_pow2 by lia.
  rewrite <- Qmult_assoc, <- Qpower_plus by apply two_neq_0.
  unfold Qdiv. rewrite <- Qpower_opp.
  replace (-53 + ms) with (- (53 - ms)) by lia. reflexivity.
Qed.

Lemma mantissa_floor m ms :
  0 <= ms <= 53 ->
  Qfloor (f64_value (S754_finite false m (-53)) * 2 ^ ms) = Z.pos m / 2 ^ (53 - ms).
Proof.
  intros Hms. rewrite (Qfloor_comp _ _ (mantissa_scaled m ms Hms)).
  symmetry. apply Zdiv_Qdiv.
Qed.

Lemma mantissa_range m :
  digits2_pos m = 53%positive ->
  (1 # 2 <= f64_value (S754_finite false m (-53)) /\
   f64_value (S754_finite false m (-53)) < 1)%Q.
Proof.
  intros Hd. pose proof (digits2_pos_bounds m) as Hb. rewrite Hd in Hb.
  cbn [f64_value cond_Zopp].
  change (2 ^ (-53))%Q with (1 # 9007199254740992)%Q.
  unfold Qle, Qlt, Qmult, inject_Z. cbn in Hb |- *. lia.
Qed.


Lemma positive_inv rs :
  f64_positive rs = true ->
  exists m e, rs = S754_finite false m e /\ bounded prec emax m e = true.
Proof. destruct rs as [| | | [] m e]; cbn; try discriminate. eauto. Qed.

(** C3 (amended).  For every real scale above zero and either working width
    [N], [np.frexp] gives a mantissa in [[0.5, 1)] and a shift with
    [real_scale = mantissa * 2^shift], and the multiplier is the integer part
    of [mantissa * 2^(N-1)]: the cast truncates, it does not round to
    nearest.  The truncated multiplier is below [2^(N-1)], so no halving
    takes place and the shift is the exponent of [np.frexp]. *)
Theorem decompose_truncates `{Platform} dt ms rs :
  multiplier_shift dt = Some ms ->
  f64_positive rs = true ->
  exists mantissa shift,
    np_frexp rs = (mantissa, shift) /\
    (f64_value rs == f64_value mantissa * 2 ^ shift)%Q /\
    (1 # 2 <= f64_value mantissa)%Q /\ (f64_value mantissa < 1)%Q /\
    decompose dt rs =
      inr (Qfloor (f64_value mantissa * 2 ^ (width dt - 1)), shift) /\
    Qfloor (f64_value mantissa * 2 ^ (width dt - 1)) < 2 ^ (width dt - 1).
Proof.
  intros Hdt Hpos. destruct (positive_inv rs Hpos) as (m & e & -> & Hb).
  destruct (decompose_finite dt ms false m e Hdt Hb) as (m' & Hfr & Hd & Hv & Hdec).
  pose proof (supported_shift _ _ Hdt) as Hms.
  exists (S754_finite false m' (-53)), (e + Z.pos (digits2_pos m)).
  rewrite (supported_width _ _ Hdt). replace (ms + 1 - 1) with ms by lia.
  rewrite mantissa_floor by lia.
  pose proof (mantissa_range m' Hd) as [Hlo Hhi].
  pose proof (truncated_mantissa_range m' ms Hd Hms).
  repeat split; try assumption; try lia.
  apply f64_value_frexp; assumption.
Qed.

(** C4.  For every real scale above zero and working width [N] of 16 or 32,
    the multiplier lies in [[2^(N-2), 2^(N-1) - 1]], and
    [multiplier / 2^(N-1) * 2^shift] differs from the real scale by less
    than one unit in the last place of the multiplier,
    [2^shift / 2^(N-1)]. *)
Theorem decompose_multiplier_range `{Platform} dt rs :
  dt = np_int32 \/ dt = np_int16 ->
  f64_positive rs = true ->
  exists multiplier shift,
    decompose dt rs = inr (multiplier, shift) /\
    2 ^ (width dt - 2) <= multiplier <= 2 ^ (width dt - 1) - 1 /\
    (Qabs (f64_value rs - inject_Z multiplier / 2 ^ (width dt - 1) * 2 ^ shift)
     < 1 / 2 ^ (width dt - 1) * 2 ^ shift)%Q.
Proof.
  intros Hsup Hpos.
  assert (exists ms, multiplier_shift dt = Some ms) as [ms Hdt]
    by (destruct Hsup as [-> | ->]; cbn; eauto).
  destruct (positive_inv rs Hpos) as (m & e & -> & Hb).
  destruct (decompose_finite dt ms false m e Hdt Hb) as (m' & Hfr & Hd & _ & Hdec).
  pose proof (supported_shift _ _ Hdt) as Hms.
  pose proof (truncated_mantissa_range m' ms Hd Hms) as Hrange.
  pose proof (f64_value_frexp false m e _ _ Hb Hfr) as Hval.
  rewrite (supported_width _ _ Hdt).
  replace (ms + 1 - 1) with ms by lia.
  replace (ms + 1 - 2) with (ms - 1) by lia.
  cbn [cond_Zopp] in Hdec. rewrite <- (mantissa_floor m' ms) in Hdec, Hrange by lia.
  set (mant := S754_finite false m' (-53)) in *.
  set (shift := e + Z.pos (digits2_pos m)) in *.
  set (q := (f64_value mant * 2 ^ ms)%Q) in *.
  exists (Qfloor q), shift. split; [assumption |]. split; [assumption |].
  rewrite Hval.
  pose proof (Qfloor_le q) as Hfl. pose proof (Qlt_floor q) as Hfu.
  rewrite inject_Z_plus in Hfu.
  pose proof (pow2_pos ms) as HP. pose proof (pow2_pos shift) as HS.
  assert (f64_value mant * 2 ^ shift - inject_Z (Qfloor q) / 2 ^ ms * 2 ^ shift ==
          (q - inject_Z (Qfloor q)) * (1 / 2 ^ ms * 2 ^ shift))%Q as ->
    by (unfold q; field; lra).
  assert (0 < 1 / 2 ^ ms * 2 ^ shift)%Q as HK.
  { apply Qmult_lt_0_compat; [| assumption].
    apply Qlt_shift_div_l; lra. }
  assert (0 <= q - inject_Z (Qfloor q) /\ q - inject_Z (Qfloor q) < 1)%Q as [Hx0 Hx1]
    by (change (inject_Z 1) with 1%Q in Hfu; split; lra).
  set (x := (q - inject_Z (Qfloor q))%Q) in *.
  set (K := (1 / 2 ^ ms * 2 ^ shift)%Q) in *.
  apply Qabs_Qlt_condition. split.
  - apply Qlt_le_trans with 0%Q; [lra |].
    apply Qmult_le_0_compat; lra.
  - rewrite <- (Qmult_1_l K) at 2. apply Qmult_lt_compat_r; assumption.
Qed.

(** The scale of the specification's end-to-end scenario:
    [0.0351 * 0.0094 / 0.0527] in binary64. *)
Example scenario_real_scale :
  f64_div (f64_mul (S754_finite false 5058443101462541 (-57))
                   (S754_finite false 5418731071652181 (-59)))
          (S754_finite false 7594870411597604 (-57))
  = S754_finite false 7218119947438010 (-60).
Proof. vm_compute. reflexivity. Qed.

Example scenario_decompose_32 :
  decompose np_int32 (S754_finite false 7218119947438010 (-60))
  = inr (1720933901, -7).
Proof. vm_compute. reflexivity. Qed.

Example scenario_decompose_16 :
  decompose np_int16 (S754_finite false 7218119947438010 (-60))
  = inr (26259, -7).
Proof. vm_compute. reflexivity. Qed.

Lemma decompose_truncates_witness :
  exists mantissa shift,
    np_frexp (S754_finite false 7218119947438010 (-60)) = (mantissa, shift) /\
    (f64_value (S754_finite false 7218119947438010 (-60))
     == f64_value mantissa * 2 ^ shift)%Q /\
    (1 # 2 <= f64_value mantissa)%Q /\ (f64_value mantissa < 1)%Q /\
    decompose np_int32 (S754_finite false 7218119947438010 (-60)) =
      inr (Qfloor (f64_value mantissa * 2 ^ (width np_int32 - 1)), shift) /\
    Qfloor (f64_value mantissa * 2 ^ (width np_int32 - 1)) < 2 ^ (width np_int32 - 1).
Proof.
  apply (decompose_truncates np_int32 31 (S754_finite false 7218119947438010 (-60)));
    reflexivity.
Defined.

(** C3, as stated, fails.  At the mantissa [0.5 + 3 * 2^-33] the scaled
    mantissa is [2^30 + 0.75]: rounding to nearest gives [2^30 + 1], the
    code's cast gives [2^30].  At [1 - 2^-53] rounding reaches [2^31], which
    the specification halves to [2^30] with the shift incremented to 1; the
    code keeps [2^31 - 1] and the shift 0. *)
Lemma decompose_not_rounded :
  f64_positive (S754_finite false (2 ^ 52 + 3 * 2 ^ 20) (-53)) = true /\
  decompose np_int32 (S754_finite false (2 ^ 52 + 3 * 2 ^ 20) (-53)) = inr (2 ^ 30, 0) /\
  spec_decompose 32 (S754_finite false (2 ^ 52 + 3 * 2 ^ 20) (-53)) = (2 ^ 30 + 1, 0) /\
  f64_positive (S754_finite false (2 ^ 53 - 1) (-53)) = true /\
  decompose np_int32 (S754_finite false (2 ^ 53 - 1) (-53)) = inr (2 ^ 31 - 1, 0) /\
  spec_decompose 32 (S754_finite false (2 ^ 53 - 1) (-53)) = (2 ^ 30, 1).
Proof. vm_compute. repeat split. Qed.

Lemma decompose_multiplier_range_witness :
  exists multiplier shift,
    decompose np_int16 (S754_finite false 7218119947438010 (-60))
    = inr (multiplier, shift) /\
    2 ^ (width np_int16 - 2) <= multiplier <= 2 ^ (width np_int16 - 1) - 1 /\
    (Qabs (f64_value (S754_finite false 7218119947438010 (-60))
           - inject_Z multiplier / 2 ^ (width np_int16 - 1) * 2 ^ shift)
     < 1 / 2 ^ (width np_int16 - 1) * 2 ^ shift)%Q.
Proof.
  apply (decompose_multiplier_range np_int16 (S754_finite false 7218119947438010 (-60)));
    [right; reflexivity | reflexivity].
Defined.

(** ** Saturation of the multiply-high *)

Lemma in_range_int_min N : 1 <= N -> in_range N (int_min N) = true.
Proof.
  intros HN. unfold in_range, int_min, int_max.
  assert (0 < 2 ^ (N - 1)) by (apply Z.pow_pos_nonneg; lia).
  apply andb_true_intro. split; apply Z.leb_le; lia.
Qed.

(** C2 (spec-modelled).  For every working width, the saturating rounding
    multiply-high of the minimum by itself is the maximum representable
    value: the rounded high half, [2^(N-1)], is one past the maximum and is
    clamped to it. *)
Theorem multiply_high_min_min_saturates dt :
  2 <= width dt ->
  saturate_rounding_doubling_multiply (int_min (width dt)) (int_min (width dt)) dt
  = inr (int_max (width dt)).
Proof.
  intros HN. unfold saturate_rounding_doubling_multiply.
  rewrite in_range_int_min by lia. cbn [andb]. f_equal.
  unfold multiply_high, rounded_high_half, clamp, int_min, int_max.
  set (N := width dt) in *.
  assert (0 < 2 ^ (N - 2)) as Hq by (apply Z.pow_pos_nonneg; lia).
  assert (2 ^ (N - 1) = 2 * 2 ^ (N - 2)) as Hp.
  { replace (N - 1) with (Z.succ (N - 2)) by lia. apply Z.pow_succ_r. lia. }
  rewrite Z.shiftr_div_pow2 by lia.
  replace (- 2 ^ (N - 1) * - 2 ^ (N - 1) + 2 ^ (N - 2))
    with (2 ^ (N - 2) + 2 ^ (N - 1) * 2 ^ (N - 1)) by lia.
  rewrite Z.div_add by lia.
  rewrite Z.div_small by lia. lia.
Qed.

Lemma multiply_high_min_min_saturates_witness :
  saturate_rounding_doubling_multiply (int_min 32) (int_min 32) np_int32
  = inr (int_max 32).
Proof. apply (multiply_high_min_min_saturates np_int32). cbn. lia. Defined.

(** ** Fixed-width arithmetic *)

Lemma pow2_gt_0 k : 0 <= k -> 0 < 2 ^ k.
Proof. intros. apply Z.pow_pos_nonneg; lia. Qed.

Lemma pow2_double N : 1 <= N -> 2 ^ N = 2 * 2 ^ (N - 1).
Proof.
  intros HN. replace N with (Z.succ (N - 1)) at 1 by lia.
  apply Z.pow_succ_r. lia.
Qed.

Lemma in_range_spec N z :
  in_range N z = true <-> - 2 ^ (N - 1) <= z <= 2 ^ (N - 1) - 1.
Proof.
  unfold in_range, int_min, int_max.
  rewrite andb_true_iff, !Z.leb_le. tauto.
Qed.

Lemma wrap_in_range N z : 1 <= N -> in_range N (wrap N z) = true.
Proof.
  intros HN. apply in_range_spec. unfold wrap.
  pose proof (pow2_double N HN). pose proof (pow2_gt_0 (N - 1)).
  pose proof (Z.mod_pos_bound (z + 2 ^ (N - 1)) (2 ^ N)). lia.
Qed.

Lemma wrap_id N z : 1 <= N -> in_range N z = true -> wrap N z = z.
Proof.
  intros HN Hz. apply in_range_spec in Hz. unfold wrap.
  pose proof (pow2_double N HN).
  rewrite Z.mod_small; lia.
Qed.

Lemma wrap_mod N z : 1 <= N -> wrap N z mod 2 ^ N = z mod 2 ^ N.
Proof.
  intros HN. unfold wrap.
  rewrite Zminus_mod_idemp_l. f_equal. lia.
Qed.

Lemma wrap_eq_mod N a b : a mod 2 ^ N = b mod 2 ^ N -> wrap N a = wrap N b.
Proof.
  intros H. unfold wrap.
  rewrite <- (Zplus_mod_idemp_l a), <- (Zplus_mod_idemp_l b), H. reflexivity.
Qed.

(** The reductions of the intermediate values do not show in [temp]. *)
Lemma wrap_offsets_product N v1 v2 zp1 zp2 :
  1 <= N ->
  wrap N (wrap N (wrap N v1 - zp1) * wrap N (wrap N v2 - zp2))
  = wrap N ((v1 - zp1) * (v2 - zp2)).
Proof.
  intros HN. apply wrap_eq_mod.
  rewrite Zmult_mod, !wrap_mod by assumption.
  rewrite (Zminus_mod (wrap N v1)), (Zminus_mod (wrap N v2)), !wrap_mod by assumption.
  rewrite <- !Zminus_mod, <- Zmult_mod. reflexivity.
Qed.

Lemma clamp_in_int8 z : in_range 8 (clamp z (-128) 127) = true.
Proof. apply in_range_spec. unfold clamp. cbn. lia. Qed.

Lemma requantize_ok dt multiplier shift zp1 zp2 zpo v1 v2 :
  1 <= width dt -> in_range (width dt) multiplier = true ->
  requantize dt multiplier shift zp1 zp2 zpo v1 v2
  = inr (quantized_product dt multiplier shift zp1 zp2 zpo v1 v2).
Proof.
  intros HN Hm. unfold requantize, np_cast.
  rewrite wrap_offsets_product by assumption.
  unfold saturate_rounding_doubling_multiply.
  rewrite wrap_in_range, Hm by assumption. cbn [andb].
  f_equal. unfold np_int8, quantized_product.
  apply wrap_id; [lia | apply clamp_in_int8].
Qed.

Lemma quantized_product_fits dt multiplier shift zp1 zp2 zpo v1 v2 :
  1 <= width dt ->
  in_range (width dt) ((v1 - zp1) * (v2 - zp2)) = true ->
  quantized_product dt multiplier shift zp1 zp2 zpo v1 v2
  = spec_element dt multiplier shift zp1 zp2 zpo v1 v2.
Proof.
  intros HN Hfit. unfold quantized_product, spec_element.
  rewrite wrap_id by assumption. reflexivity.
Qed.

Lemma np_int_of_float_in_range `{Platform} N x :
  1 <= N -> in_range N (np_int_of_float N x) = true.
Proof.
  intros HN. unfold np_int_of_float.
  destruct (f64_trunc x) as [z |]; [| apply wrap_in_range; assumption].
  destruct (in_range N z) eqn:Hz; [assumption | apply wrap_in_range; assumption].
Qed.

Lemma decompose_inr `{Platform} dt rs multiplier shift :
  decompose dt rs = inr (multiplier, shift) ->
  (dt = np_int32 \/ dt = np_int16) /\ in_range (width dt) multiplier = true.
Proof.
  unfold decompose. destruct (np_frexp rs) as [mf sh].
  destruct dt; cbn [multiplier_shift]; try discriminate;
    intros [= <- <-]; (split; [auto |]);
    apply np_int_of_float_in_range; cbn; lia.
Qed.

Lemma supported_width_ge dt : dt = np_int32 \/ dt = np_int16 -> 1 <= width dt.
Proof. intros [-> | ->]; cbn; lia. Qed.

(** ** The loop *)

Lemma for_range_app l1 l2 body st :
  for_range (l1 ++ l2) body st =
  match for_range l1 body st with
  | (st', inr _) => for_range l2 body st'
  | (st', inl e) => (st', inl e)
  end.
Proof.
  revert st. induction l1 as [| i l1 IH]; intros st; cbn [for_range app].
  - reflexivity.
  - unfold bind. destruct (body i st) as [st' [e | []]]; [reflexivity | apply IH].
Qed.

Lemma written_S t k : written t (S k) = written t k ++ [(t, k)].
Proof. unfold written. rewrite seq_S, map_app. reflexivity. Qed.

Lemma set_value_id t : set_value t (value t) = t.
Proof. destruct t. reflexivity. Qed.

Lemma bind_inr {A B} (m : M A) (k : A -> M B) st st' a :
  m st = (st', inr a) -> bind m k st = k a st'.
Proof. intros H. unfold bind. rewrite H. reflexivity. Qed.

Lemma bind_inl {A B} (m : M A) (k : A -> M B) st st' e :
  m st = (st', inl e) -> bind m k st = (st', inl e).
Proof. intros H. unfold bind. rewrite H. reflexivity. Qed.

Lemma get_tensor_bound l st t :
  heap st !! l = Some t -> get_tensor l st = (st, inr t).
Proof. intros H. unfold get_tensor. rewrite H. reflexivity. Qed.

Lemma read_value_bound l i st t v :
  heap st !! l = Some t -> value t !! i = Some v ->
  read_value l i st = (st, inr v).
Proof.
  intros H Hv. unfold read_value.
  rewrite (bind_inr _ _ _ _ _ (get_tensor_bound _ _ _ H)), Hv. reflexivity.
Qed.

Lemma read_value_past l i st t :
  heap st !! l = Some t -> value t !! i = None ->
  read_value l i st = (st, inl IndexError).
Proof.
  intros H Hv. unfold read_value.
  rewrite (bind_inr _ _ _ _ _ (get_tensor_bound _ _ _ H)), Hv. reflexivity.
Qed.

Lemma write_value_bound l i v st t :
  heap st !! l = Some t -> (i < length (value t))%nat ->
  write_value l i v st =
  ({| heap := <[l := set_value t (<[i := v]> (value t))]> (heap st);
      writes := writes st ++ [(l, i)] |}, inr tt).
Proof.
  intros H Hi. unfold write_value. rewrite H.
  destruct (Nat.ltb_spec i (length (value t))); [reflexivity | lia].
Qed.

Lemma write_value_past l i v st t :
  heap st !! l = Some t -> (length (value t) <= i)%nat ->
  write_value l i v st = (st, inl IndexError).
Proof.
  intros H Hi. unfold write_value. rewrite H.
  destruct (Nat.ltb_spec i (length (value t))); [lia | reflexivity].
Qed.

Section Run.
Variables (tensor1 tensor2 output_tensor : loc) (dt : datatype).
Variables (multiplier shift : Z).
Variables (st : state) (t1 t2 t3 : Tensor).
Hypothesis bound1 : heap st !! tensor1 = Some t1.
Hypothesis bound2 : heap st !! tensor2 = Some t2.
Hypothesis bound3 : heap st !! output_tensor = Some t3.
Hypothesis width_ok : 1 <= width dt.
Hypothesis multiplier_ok : in_range (width dt) multiplier = true.

Local Abbreviation outs := (outputs dt multiplier shift t1 t2 t3).
Local Abbreviation after := (final_state output_tensor dt multiplier shift t1 t2 t3).
Local Abbreviation body := (multiply_body tensor1 tensor2 output_tensor dt multiplier shift).

Lemma length_outputs :
  (length outs = length (value t1) `min` length (value t2))%nat.
Proof. unfold outputs. apply length_zip_with. Qed.

Lemma final_state_0 : after 0%nat st = st.
Proof.
  unfold final_state, written. cbn [take drop app seq map].
  rewrite set_value_id, insert_id, app_nil_r by assumption.
  destruct st. reflexivity.
Qed.

(** Whatever the aliasing, every object bound before the run is seen, after
    [k] iterations, with its attributes and with the elements from [k] on
    as they were. *)
Lemma lookup_after l t k :
  heap st !! l = Some t ->
  (k <= reached t1 t2 t3)%nat ->
  exists t',
    heap (after k st) !! l = Some t' /\
    zero_point t' = zero_point t /\
    scale t' = scale t /\
    length (value t') = length (value t) /\
    forall i, (k <= i)%nat -> value t' !! i = value t !! i.
Proof.
  intros Hl Hk. unfold reached in Hk. unfold final_state. cbn [heap].
  destruct (decide (l = output_tensor)) as [-> | Hne].
  - rewrite lookup_insert_eq. eexists. split; [reflexivity |].
    pose proof (eq_trans (eq_sym Hl) bound3) as [= ->].
    cbn [set_value zero_point scale value].
    pose proof length_outputs.
    assert (length (take k outs) = k) as Hlen by (rewrite length_take; lia).
    repeat split.
    + rewrite length_app, Hlen, length_drop. lia.
    + intros i Hi. rewrite lookup_app_r by lia.
      rewrite Hlen, lookup_drop. f_equal. lia.
  - rewrite lookup_insert_ne by congruence. exists t. auto.
Qed.

Lemma lookup_outputs k v1 v2 :
  value t1 !! k = Some v1 -> value t2 !! k = Some v2 ->
  outs !! k = Some (quantized_product dt multiplier shift
                      (zero_point t1) (zero_point t2) (zero_point t3) v1 v2).
Proof.
  intros H1 H2. unfold outputs.
  rewrite lookup_zip_with, H1. cbn. rewrite H2. reflexivity.
Qed.

Lemma after_S k v1 v2 :
  value t1 !! k = Some v1 -> value t2 !! k = Some v2 ->
  (k < length (value t3))%nat ->
  {| heap := <[output_tensor :=
                 set_value t3
                   (<[k := quantized_product dt multiplier shift
                             (zero_point t1) (zero_point t2) (zero_point t3) v1 v2]>
                      (take k outs ++ drop k (value t3)))]> (heap (after k st));
     writes := writes (after k st) ++ [(output_tensor, k)] |}
  = after (S k) st.
Proof.
  intros H1 H2 H3. pose proof (lookup_outputs k v1 v2 H1 H2) as Ho.
  unfold final_state. cbn [heap writes].
  rewrite insert_insert_eq, written_S, app_assoc. f_equal. f_equal. f_equal.
  destruct (lookup_lt_is_Some_2 (value t3) k H3) as [x Hx].
  assert (length (take k outs) = k) as Hlen.
  { rewrite length_take. apply lookup_lt_Some in Ho. lia. }
  rewrite (take_S_r _ _ _ Ho), (drop_S _ _ _ Hx).
  rewrite insert_app_r_alt by lia.
  rewrite Hlen, Nat.sub_diag. cbn [insert list_insert].
  rewrite <- app_assoc. reflexivity.
Qed.

Lemma body_step k :
  (k < reached t1 t2 t3)%nat ->
  body k (after k st) = (after (S k) st, inr tt).
Proof.
  intros Hk.
  destruct (lookup_after _ _ k bound1 ltac:(lia)) as (a1 & Ha1 & Hz1 & _ & _ & Hv1).
  destruct (lookup_after _ _ k bound2 ltac:(lia)) as (a2 & Ha2 & Hz2 & _ & _ & Hv2).
  destruct (lookup_after _ _ k bound3 ltac:(lia)) as (a3 & Ha3 & Hz3 & _ & Hl3 & _).
  unfold reached in Hk.
  destruct (lookup_lt_is_Some_2 (value t1) k ltac:(lia)) as [v1 Hk1].
  destruct (lookup_lt_is_Some_2 (value t2) k ltac:(lia)) as [v2 Hk2].
  pose proof Hk1 as Hk1'. rewrite <- (Hv1 k (le_n k)) in Hk1'.
  pose proof Hk2 as Hk2'. rewrite <- (Hv2 k (le_n k)) in Hk2'.
  unfold multiply_body.
  rewrite (bind_inr _ _ _ _ _ (read_value_bound _ _ _ _ _ Ha1 Hk1')).
  rewrite (bind_inr _ _ _ _ _ (get_tensor_bound _ _ _ Ha1)).
  rewrite (bind_inr _ _ _ _ _ (read_value_bound _ _ _ _ _ Ha2 Hk2')).
  rewrite (bind_inr _ _ _ _ _ (get_tensor_bound _ _ _ Ha2)).
  rewrite (bind_inr _ _ _ _ _ (get_tensor_bound _ _ _ Ha3)).
  rewrite Hz1, Hz2, Hz3, requantize_ok by assumption.
  unfold bind, lift.
  rewrite (write_value_bound _ _ _ _ _ Ha3) by lia.
  f_equal. rewrite <- (after_S k v1 v2) by (assumption || lia).
  unfold final_state in Ha3. cbn [heap] in Ha3.
  rewrite lookup_insert_eq in Ha3. injection Ha3 as <-.
  reflexivity.
Qed.

Lemma body_stops k :
  k = reached t1 t2 t3 -> (k < length (value t1))%nat ->
  body k (after k st) = (after k st, inl IndexError).
Proof.
  intros Hk Hlt.
  destruct (lookup_after _ _ k bound1 ltac:(lia)) as (a1 & Ha1 & Hz1 & _ & _ & Hv1).
  destruct (lookup_after _ _ k bound2 ltac:(lia)) as (a2 & Ha2 & Hz2 & _ & _ & Hv2).
  destruct (lookup_after _ _ k bound3 ltac:(lia)) as (a3 & Ha3 & Hz3 & _ & Hl3 & _).
  unfold reached in Hk.
  destruct (lookup_lt_is_Some_2 (value t1) k ltac:(lia)) as [v1 Hk1].
  pose proof Hk1 as Hk1'. rewrite <- (Hv1 k (le_n k)) in Hk1'.
  unfold multiply_body.
  rewrite (bind_inr _ _ _ _ _ (read_value_bound _ _ _ _ _ Ha1 Hk1')).
  rewrite (bind_inr _ _ _ _ _ (get_tensor_bound _ _ _ Ha1)).
  destruct (value t2 !! k) as [v2 |] eqn:Hk2.
  - pose proof Hk2 as Hk2'. rewrite <- (Hv2 k (le_n k)) in Hk2'.
    rewrite (bind_inr _ _ _ _ _ (read_value_bound _ _ _ _ _ Ha2 Hk2')).
    rewrite (bind_inr _ _ _ _ _ (get_tensor_bound _ _ _ Ha2)).
    rewrite (bind_inr _ _ _ _ _ (get_tensor_bound _ _ _ Ha3)).
    rewrite Hz1, Hz2, Hz3, requantize_ok by assumption.
    unfold bind, lift. apply lookup_lt_Some in Hk2.
    rewrite (write_value_past _ _ _ _ _ Ha3) by lia. reflexivity.
  - rewrite <- (Hv2 k (le_n k)) in Hk2.
    rewrite (bind_inl _ _ _ _ _ (read_value_past _ _ _ _ Ha2 Hk2)). reflexivity.
Qed.

Lemma loop_prefix k :
  (k <= reached t1 t2 t3)%nat ->
  for_range (seq 0 k) body st = (after k st, inr tt).
Proof.
  induction k as [| k IH]; intros Hk.
  - cbn. unfold ret. rewrite final_state_0. reflexivity.
  - rewrite seq_S, for_range_app, IH by lia. cbn [for_range Nat.add].
    unfold bind. rewrite body_step by lia. reflexivity.
Qed.

Lemma loop_run :
  for_range (seq 0 (length (value t1))) body st =
  (after (reached t1 t2 t3) st,
   if (reached t1 t2 t3 <? length (value t1))%nat then inl IndexError else inr tt).
Proof.
  destruct (Nat.ltb_spec (reached t1 t2 t3) (length (value t1))) as [Hlt | Hge].
  - replace (length (value t1))
      with (reached t1 t2 t3 + S (length (value t1) - S (reached t1 t2 t3)))%nat by lia.
    rewrite seq_app, for_range_app, loop_prefix by lia.
    cbn [seq for_range Nat.add]. unfold bind.
    rewrite body_stops by (reflexivity || lia). reflexivity.
  - assert (reached t1 t2 t3 = length (value t1)) as Heq by (unfold reached in *; lia).
    rewrite <- Heq. apply loop_prefix. lia.
Qed.
End Run.

(** What a call does, whatever its arguments: the decomposition may raise,
    leaving the state as it is; otherwise the loop goes through the indices
    that lie within the three buffers, and raises [IndexError] at the first
    index that does not, if any is left. *)
Lemma multiply_run `{Platform} tensor1 tensor2 output_tensor dt st t1 t2 t3 :
  heap st !! tensor1 = Some t1 ->
  heap st !! tensor2 = Some t2 ->
  heap st !! output_tensor = Some t3 ->
  multiply tensor1 tensor2 output_tensor dt st =
  match decompose dt (real_scale t1 t2 t3) with
  | inl e => (st, inl e)
  | inr (multiplier, shift) =>
      (final_state output_tensor dt multiplier shift t1 t2 t3 (reached t1 t2 t3) st,
       if (reached t1 t2 t3 <? length (value t1))%nat then inl IndexError else inr tt)
  end.
Proof.
  intros H1 H2 H3. unfold multiply, bind, get_tensor, lift.
  rewrite H1, H2, H3.
  destruct (decompose dt (real_scale t1 t2 t3)) as [e | [multiplier shift]] eqn:Hd;
    [reflexivity |].
  apply decompose_inr in Hd as [Hdt Hm].
  apply loop_run; auto using supported_width_ge.
Qed.

(** ** The state a run ends in *)

Lemma lookup_final_output out dt multiplier shift t1 t2 t3 k st :
  heap (final_state out dt multiplier shift t1 t2 t3 k st) !! out
  = Some (set_value t3 (take k (outputs dt multiplier shift t1 t2 t3)
                        ++ drop k (value t3))).
Proof. unfold final_state. cbn [heap]. apply lookup_insert_eq. Qed.

Lemma lookup_final_other out dt multiplier shift t1 t2 t3 k st l :
  l <> out ->
  heap (final_state out dt multiplier shift t1 t2 t3 k st) !! l = heap st !! l.
Proof. intros Hne. unfold final_state. cbn [heap]. apply lookup_insert_ne. congruence. Qed.

Lemma mixed_length (outs old : list Z) k :
  (k <= length outs)%nat -> (k <= length old)%nat ->
  length (take k outs ++ drop k old) = length old.
Proof. intros. rewrite length_app, length_take, length_drop. lia. Qed.

Lemma mixed_lookup_written (outs old : list Z) k i :
  (i < k)%nat -> (k <= length outs)%nat ->
  (take k outs ++ drop k old) !! i = outs !! i.
Proof.
  intros Hi Hk. rewrite lookup_app_l by (rewrite length_take; lia).
  apply lookup_take_lt. lia.
Qed.

Lemma mixed_lookup_kept (outs old : list Z) k i :
  (k <= i)%nat -> (k <= length outs)%nat ->
  (take k outs ++ drop k old) !! i = old !! i.
Proof.
  intros Hi Hk.
  assert (length (take k outs) = k) as Hlen by (rewrite length_take; lia).
  rewrite lookup_app_r by lia. rewrite Hlen, lookup_drop. f_equal. lia.
Qed.

Lemma length_outputs_equal dt multiplier shift t1 t2 t3 :
  length (outputs dt multiplier shift t1 t2 t3)
  = (length (value t1) `min` length (value t2))%nat.
Proof. unfold outputs. apply length_zip_with. Qed.

Lemma decompose_total `{Platform} dt rs :
  dt = np_int32 \/ dt = np_int16 -> f64_finite rs = true ->
  exists multiplier shift, decompose dt rs = inr (multiplier, shift).
Proof.
  intros Hdt Hfin.
  assert (exists ms, multiplier_shift dt = Some ms) as [ms Hms]
    by (destruct Hdt as [-> | ->]; cbn; eauto).
  destruct rs as [s | s | | s m e]; cbn in Hfin; try discriminate.
  - rewrite (decompose_zero dt ms s Hms). eauto.
  - destruct (decompose_finite dt ms s m e Hms Hfin) as (m' & _ & _ & _ & ->). eauto.
Qed.

(** For a recognised datatype the decomposition raises nothing, whatever the
    real scale. *)
Lemma decompose_supported `{Platform} dt rs :
  dt = np_int32 \/ dt = np_int16 ->
  exists multiplier shift, decompose dt rs = inr (multiplier, shift).
Proof.
  intros Hdt. unfold decompose. destruct (np_frexp rs) as [mf sh].
  destruct Hdt as [-> | ->]; cbn [multiplier_shift]; eauto.
Qed.

(** ** The output elements *)

Lemma multiply_equal_counts `{Platform} tensor1 tensor2 output_tensor dt st t1 t2 t3
    multiplier shift :
  heap st !! tensor1 = Some t1 ->
  heap st !! tensor2 = Some t2 ->
  heap st !! output_tensor = Some t3 ->
  length (value t2) = length (value t1) ->
  length (value t3) = length (value t1) ->
  decompose dt (real_scale t1 t2 t3) = inr (multiplier, shift) ->
  multiply tensor1 tensor2 output_tensor dt st =
    (final_state output_tensor dt multiplier shift t1 t2 t3 (length (value t1)) st,
     inr tt) /\
  forall i v1 v2,
    value t1 !! i = Some v1 -> value t2 !! i = Some v2 ->
    (take (length (value t1)) (outputs dt multiplier shift t1 t2 t3)
     ++ drop (length (value t1)) (value t3)) !! i
    = Some (quantized_product dt multiplier shift
              (zero_point t1) (zero_point t2) (zero_point t3) v1 v2).
Proof.
  intros H1 H2 H3 Hl2 Hl3 Hdec.
  rewrite (multiply_run _ _ _ _ _ _ _ _ H1 H2 H3), Hdec.
  assert (reached t1 t2 t3 = length (value t1)) as Hr by (unfold reached; lia).
  rewrite Hr, Nat.ltb_irrefl. split; [reflexivity |].
  intros i v1 v2 Hv1 Hv2. apply lookup_lt_Some in Hv1 as Hlt.
  rewrite mixed_lookup_written by (rewrite ?length_outputs_equal; lia).
  apply lookup_outputs; assumption.
Qed.

(** C1 (amended).  For input tensors of equal element count and a matching
    output tensor, with [(multiplier, shift)] decomposed once from
    [lhs.scale * rhs.scale / output.scale], the call completes and every
    output element at index [i] is
    [clamp(RoundingShift(SaturatingRoundingMultiplyHigh(temp, multiplier),
    shift) + output.zero_point, -128, 127)], where [temp] is the product
    [(lhs.values[i] - lhs.zero_point) * (rhs.values[i] - rhs.zero_point)]
    reduced to the working width in two's complement; [temp] is the product
    itself whenever the product fits the working width. *)
Theorem multiply_elements `{Platform} tensor1 tensor2 output_tensor dt st t1 t2 t3
    multiplier shift :
  heap st !! tensor1 = Some t1 ->
  heap st !! tensor2 = Some t2 ->
  heap st !! output_tensor = Some t3 ->
  length (value t2) = length (value t1) ->
  length (value t3) = length (value t1) ->
  decompose dt (real_scale t1 t2 t3) = inr (multiplier, shift) ->
  exists st' t3',
    multiply tensor1 tensor2 output_tensor dt st = (st', inr tt) /\
    heap st' !! output_tensor = Some t3' /\
    forall i v1 v2,
      value t1 !! i = Some v1 -> value t2 !! i = Some v2 ->
      value t3' !! i =
        Some (quantized_product dt multiplier shift
                (zero_point t1) (zero_point t2) (zero_point t3) v1 v2) /\
      (in_range (width dt) ((v1 - zero_point t1) * (v2 - zero_point t2)) = true ->
       value t3' !! i =
         Some (spec_element dt multiplier shift
                 (zero_point t1) (zero_point t2) (zero_point t3) v1 v2)).
Proof.
  intros H1 H2 H3 Hl2 Hl3 Hdec.
  destruct (multiply_equal_counts _ _ _ _ _ _ _ _ _ _ H1 H2 H3 Hl2 Hl3 Hdec)
    as [Hrun Hel].
  eexists _, _. split; [exact Hrun |]. split; [apply lookup_final_output |].
  intros i v1 v2 Hv1 Hv2. cbn [set_value value].
  split; [apply Hel; assumption |].
  intros Hfit. rewrite (Hel i v1 v2 Hv1 Hv2). f_equal.
  apply decompose_inr in Hdec as [Hdt _].
  apply quantized_product_fits; auto using supported_width_ge.
Qed.

Lemma multiply_elements_witness :
  exists st' t3',
    multiply 0%nat 1%nat 2%nat np_int32
      (call_state scenario_lhs scenario_rhs scenario_out) = (st', inr tt) /\
    heap st' !! 2%nat = Some t3' /\
    forall i v1 v2,
      value scenario_lhs !! i = Some v1 -> value scenario_rhs !! i = Some v2 ->
      value t3' !! i =
        Some (quantized_product np_int32 1720933901 (-7) 2 0 (-36) v1 v2) /\
      (in_range 32 ((v1 - 2) * (v2 - 0)) = true ->
       value t3' !! i = Some (spec_element np_int32 1720933901 (-7) 2 0 (-36) v1 v2)).
Proof.
  apply (multiply_elements 0%nat 1%nat 2%nat np_int32
           (call_state scenario_lhs scenario_rhs scenario_out)
           scenario_lhs scenario_rhs scenario_out 1720933901 (-7));
    vm_compute; reflexivity.
Defined.

(** The specification's end-to-end scenario: the element 10 of zero-point 2
    times the element -3 gives -36, the float reference being -36.15. *)
Example scenario_output :
  snd (multiply 0%nat 1%nat 2%nat np_int32
         (call_state scenario_lhs scenario_rhs scenario_out)) = inr tt /\
  buffer 2%nat (fst (multiply 0%nat 1%nat 2%nat np_int32
                       (call_state scenario_lhs scenario_rhs scenario_out)))
  = Some [-36; 63].
Proof. vm_compute. split; reflexivity. Qed.

(** C1, as stated, fails.  With 8-bit elements 127 of zero-point -128 on both
    sides and a 16-bit working width, the product of the offsets,
    [255 * 255 = 65025], does not fit 16 bits: [temp] is -511 and the element
    stored is -128, where the claim's formula gives 127. *)
Lemma multiply_wraps_product :
  decompose np_int16
    (real_scale (unit_tensor [127] (-128)) (unit_tensor [127] (-128)) (unit_tensor [0] 0))
  = inr (16384, 1) /\
  snd (multiply 0%nat 1%nat 2%nat np_int16
         (call_state (unit_tensor [127] (-128)) (unit_tensor [127] (-128))
                     (unit_tensor [0] 0))) = inr tt /\
  buffer 2%nat
    (fst (multiply 0%nat 1%nat 2%nat np_int16
            (call_state (unit_tensor [127] (-128)) (unit_tensor [127] (-128))
                        (unit_tensor [0] 0)))) = Some [-128] /\
  spec_element np_int16 16384 1 (-128) (-128) 0 127 127 = 127.
Proof. vm_compute. repeat split. Qed.

(** ** Element counts that disagree *)

(** C5 (amended).  The kernel compares no element counts and raises no
    [ShapeMismatchError].  When the output tensor has [m] elements and the
    inputs [n], with [m <> n], a call whose decomposition succeeds goes
    through the first [min n m] indices, writing those output elements; it
    then completes without error if [n < m], and raises [IndexError] at
    index [m], with the [m] elements written, if [m < n]. *)
Theorem multiply_count_mismatch `{Platform} tensor1 tensor2 output_tensor dt st t1 t2 t3
    multiplier shift :
  heap st !! tensor1 = Some t1 ->
  heap st !! tensor2 = Some t2 ->
  heap st !! output_tensor = Some t3 ->
  length (value t2) = length (value t1) ->
  length (value t3) <> length (value t1) ->
  decompose dt (real_scale t1 t2 t3) = inr (multiplier, shift) ->
  exists st',
    multiply tensor1 tensor2 output_tensor dt st =
      (st', if (length (value t3) <? length (value t1))%nat
            then inl IndexError else inr tt) /\
    writes st' =
      writes st ++ written output_tensor (length (value t1) `min` length (value t3)) /\
    heap st' !! output_tensor =
      Some (set_value t3
              (take (length (value t1) `min` length (value t3))
                    (outputs dt multiplier shift t1 t2 t3)
               ++ drop (length (value t1) `min` length (value t3)) (value t3))).
Proof.
  intros H1 H2 H3 Hl2 Hl3 Hdec.
  rewrite (multiply_run _ _ _ _ _ _ _ _ H1 H2 H3), Hdec.
  assert (reached t1 t2 t3 = (length (value t1) `min` length (value t3))%nat) as ->
    by (unfold reached; lia).
  assert ((length (value t1) `min` length (value t3) <? length (value t1))%nat
          = (length (value t3) <? length (value t1))%nat) as ->.
  { destruct (Nat.ltb_spec (length (value t3)) (length (value t1)));
      destruct (Nat.ltb_spec (length (value t1) `min` length (value t3))
                             (length (value t1)));
      (reflexivity || lia). }
  eexists. split; [reflexivity |]. split; [reflexivity | apply lookup_final_output].
Qed.

Lemma multiply_count_mismatch_witness :
  exists st',
    multiply 0%nat 1%nat 2%nat np_int32
      (call_state (unit_tensor [1; 2] 0) (unit_tensor [3; 4] 0) (unit_tensor [9] 0)) =
      (st', inl IndexError) /\
    writes st' = [(2%nat, 0%nat)] /\
    heap st' !! 2%nat = Some (unit_tensor [4] 0).
Proof.
  apply (multiply_count_mismatch 0%nat 1%nat 2%nat np_int32
           (call_state (unit_tensor [1; 2] 0) (unit_tensor [3; 4] 0) (unit_tensor [9] 0))
           (unit_tensor [1; 2] 0) (unit_tensor [3; 4] 0) (unit_tensor [9] 0)
           (2 ^ 30) 1);
    vm_compute; (reflexivity || discriminate).
Defined.

(** C5, as stated, fails.  With an output of three elements for inputs of
    two, the call completes without error and writes two elements; with an
    output of one element it raises [IndexError], not
    [ShapeMismatchError], after it has written that element. *)
Lemma multiply_no_shape_check :
  snd (multiply 0%nat 1%nat 2%nat np_int32
         (call_state (unit_tensor [1; 2] 0) (unit_tensor [3; 4] 0)
                     (unit_tensor [9; 9; 9] 0))) = inr tt /\
  buffer 2%nat
    (fst (multiply 0%nat 1%nat 2%nat np_int32
            (call_state (unit_tensor [1; 2] 0) (unit_tensor [3; 4] 0)
                        (unit_tensor [9; 9; 9] 0)))) = Some [4; 8; 9] /\
  snd (multiply 0%nat 1%nat 2%nat np_int32
         (call_state (unit_tensor [1; 2] 0) (unit_tensor [3; 4] 0)
                     (unit_tensor [9] 0))) = inl IndexError /\
  writes
    (fst (multiply 0%nat 1%nat 2%nat np_int32
            (call_state (unit_tensor [1; 2] 0) (unit_tensor [3; 4] 0)
                        (unit_tensor [9] 0)))) = [(2%nat, 0%nat)] /\
  buffer 2%nat
    (fst (multiply 0%nat 1%nat 2%nat np_int32
            (call_state (unit_tensor [1; 2] 0) (unit_tensor [3; 4] 0)
                        (unit_tensor [9] 0)))) = Some [4].
Proof. vm_compute. repeat split. Qed.

(** ** Scales outside the domain *)

Lemma decompose_nonpositive `{Platform} dt rs multiplier shift :
  f64_finite rs = true -> f64_positive rs = false ->
  decompose dt rs = inr (multiplier, shift) -> multiplier <= 0.
Proof.
  intros Hfin Hpos Hdec.
  destruct (decompose_inr _ _ _ _ Hdec) as [Hdt _].
  assert (exists ms, multiplier_shift dt = Some ms) as [ms Hms]
    by (destruct Hdt as [-> | ->]; cbn; eauto).
  destruct rs as [s | s | | s m e]; cbn in Hfin, Hpos; try discriminate.
  - rewrite (decompose_zero dt ms s Hms) in Hdec. injection Hdec as <- <-. lia.
  - destruct s; [| congruence].
    destruct (decompose_finite dt ms true m e Hms Hfin) as (m' & _ & Hd & _ & Heq).
    rewrite Heq in Hdec. injection Hdec as <- <-. cbn [cond_Zopp].
    pose proof (truncated_mantissa_range m' ms Hd (supported_shift _ _ Hms)).
    pose proof (pow2_gt_0 (ms - 1)).
    destruct (supported_shift _ _ Hms); lia.
Qed.

(** C6 (amended).  The kernel checks neither the sign nor the finiteness of
    the derived real scale and raises no [DomainError].  For every call with
    matching element counts, a working width of 16 or 32 and a finite real
    scale that is zero or negative, the decomposition gives a multiplier
    that is zero or negative, and the call completes without error, having
    written every output element. *)
Theorem multiply_nonpositive_scale `{Platform} tensor1 tensor2 output_tensor dt st t1 t2 t3 :
  heap st !! tensor1 = Some t1 ->
  heap st !! tensor2 = Some t2 ->
  heap st !! output_tensor = Some t3 ->
  length (value t2) = length (value t1) ->
  length (value t3) = length (value t1) ->
  dt = np_int32 \/ dt = np_int16 ->
  f64_finite (real_scale t1 t2 t3) = true ->
  f64_positive (real_scale t1 t2 t3) = false ->
  exists st' multiplier shift,
    decompose dt (real_scale t1 t2 t3) = inr (multiplier, shift) /\
    multiplier <= 0 /\
    multiply tensor1 tensor2 output_tensor dt st = (st', inr tt) /\
    writes st' = writes st ++ written output_tensor (length (value t3)) /\
    heap st' !! output_tensor =
      Some (set_value t3 (outputs dt multiplier shift t1 t2 t3)).
Proof.
  intros H1 H2 H3 Hl2 Hl3 Hdt Hfin Hpos.
  destruct (decompose_total dt _ Hdt Hfin) as (multiplier & shift & Hdec).
  rewrite (multiply_run _ _ _ _ _ _ _ _ H1 H2 H3), Hdec.
  assert (reached t1 t2 t3 = length (value t3)) as -> by (unfold reached; lia).
  rewrite Hl3, Nat.ltb_irrefl.
  eexists _, multiplier, shift. split; [reflexivity |].
  split; [eapply decompose_nonpositive; eassumption |].
  split; [reflexivity |]. split; [reflexivity |].
  rewrite lookup_final_output. do 2 f_equal.
  rewrite drop_ge, app_nil_r by lia. apply take_ge.
  rewrite length_outputs_equal. lia.
Qed.

Lemma multiply_nonpositive_scale_witness :
  exists st' multiplier shift,
    decompose np_int32
      (real_scale {| value := [10; 20]; scale := f64_minus_half; zero_point := 0 |}
                  (unit_tensor [3; 4] 0) (unit_tensor [9; 9] 0))
    = inr (multiplier, shift) /\
    multiplier <= 0 /\
    multiply 0%nat 1%nat 2%nat np_int32
      (call_state {| value := [10; 20]; scale := f64_minus_half; zero_point := 0 |}
                  (unit_tensor [3; 4] 0) (unit_tensor [9; 9] 0)) = (st', inr tt) /\
    writes st' = [(2%nat, 0%nat); (2%nat, 1%nat)] /\
    heap st' !! 2%nat =
      Some (set_value (unit_tensor [9; 9] 0)
              (outputs np_int32 multiplier shift
                 {| value := [10; 20]; scale := f64_minus_half; zero_point := 0 |}
                 (unit_tensor [3; 4] 0) (unit_tensor [9; 9] 0))).
Proof.
  apply (multiply_nonpositive_scale 0%nat 1%nat 2%nat np_int32
           (call_state {| value := [10; 20]; scale := f64_minus_half; zero_point := 0 |}
                       (unit_tensor [3; 4] 0) (unit_tensor [9; 9] 0))
           {| value := [10; 20]; scale := f64_minus_half; zero_point := 0 |}
           (unit_tensor [3; 4] 0) (unit_tensor [9; 9] 0));
    first [left; reflexivity | vm_compute; reflexivity].
Defined.

(** C6, as stated, fails.  With the scale -0.5 on the left input and 1
    elsewhere, the real scale is -0.5; the call raises nothing and writes
    both output elements.  With a scale of zero the real scale is zero and
    every output element is the output zero-point. *)
Lemma multiply_no_domain_check :
  real_scale {| value := [10; 20]; scale := f64_minus_half; zero_point := 0 |}
             (unit_tensor [3; 4] 0) (unit_tensor [9; 9] 0) = f64_minus_half /\
  snd (multiply 0%nat 1%nat 2%nat np_int32
         (call_state {| value := [10; 20]; scale := f64_minus_half; zero_point := 0 |}
                     (unit_tensor [3; 4] 0) (unit_tensor [9; 9] 0))) = inr tt /\
  buffer 2%nat
    (fst (multiply 0%nat 1%nat 2%nat np_int32
            (call_state {| value := [10; 20]; scale := f64_minus_half; zero_point := 0 |}
                        (unit_tensor [3; 4] 0) (unit_tensor [9; 9] 0))))
  = Some [-15; -40] /\
  real_scale {| value := [10; 20]; scale := S754_zero false; zero_point := 0 |}
             (unit_tensor [3; 4] 0) (unit_tensor [9; 9] 5) = S754_zero false /\
  snd (multiply 0%nat 1%nat 2%nat np_int32
         (call_state {| value := [10; 20]; scale := S754_zero false; zero_point := 0 |}
                     (unit_tensor [3; 4] 0) (unit_tensor [9; 9] 5))) = inr tt /\
  buffer 2%nat
    (fst (multiply 0%nat 1%nat 2%nat np_int32
            (call_state {| value := [10; 20]; scale := S754_zero false; zero_point := 0 |}
                        (unit_tensor [3; 4] 0) (unit_tensor [9; 9] 5))))
  = Some [5; 5].
Proof. vm_compute. repeat split. Qed.

(** ** An unsupported datatype *)

(** C10.  With a datatype other than [np.int32] and [np.int16] the call
    ends in [AssertionError], raised after the real scale and its
    decomposition by [np.frexp] and before the loop: the state, the output
    buffer included, is as it was and nothing has been written. *)
Theorem multiply_unsupported_datatype `{Platform} tensor1 tensor2 output_tensor bits st t1 t2 t3 :
  heap st !! tensor1 = Some t1 ->
  heap st !! tensor2 = Some t2 ->
  heap st !! output_tensor = Some t3 ->
  multiply tensor1 tensor2 output_tensor (np_other bits) st = (st, inl AssertionError).
Proof.
  intros H1 H2 H3. rewrite (multiply_run _ _ _ _ _ _ _ _ H1 H2 H3).
  unfold decompose. destruct (np_frexp _). reflexivity.
Qed.

Lemma multiply_unsupported_datatype_witness :
  multiply 0%nat 1%nat 2%nat (np_other 8)
    (call_state scenario_lhs scenario_rhs scenario_out)
  = (call_state scenario_lhs scenario_rhs scenario_out, inl AssertionError).
Proof.
  apply (multiply_unsupported_datatype 0%nat 1%nat 2%nat 8
           (call_state scenario_lhs scenario_rhs scenario_out)
           scenario_lhs scenario_rhs scenario_out); reflexivity.
Defined.

(** ** What a call leaves untouched *)

(** C9 (amended).  With a datatype of [np.int32] or [np.int16], when the
    output buffer has more elements than the inputs, which have [n] each,
    the call completes without error, stores the [n] elements it computes in
    the first [n] positions of the output buffer, in order, writes no other
    position, and leaves every output element at index [n] or beyond as it
    was. *)
Theorem multiply_longer_output `{Platform} tensor1 tensor2 output_tensor dt st t1 t2 t3 :
  heap st !! tensor1 = Some t1 ->
  heap st !! tensor2 = Some t2 ->
  heap st !! output_tensor = Some t3 ->
  length (value t2) = length (value t1) ->
  (length (value t1) < length (value t3))%nat ->
  dt = np_int32 \/ dt = np_int16 ->
  exists st' t3' multiplier shift,
    decompose dt (real_scale t1 t2 t3) = inr (multiplier, shift) /\
    multiply tensor1 tensor2 output_tensor dt st = (st', inr tt) /\
    writes st' = writes st ++ written output_tensor (length (value t1)) /\
    heap st' !! output_tensor = Some t3' /\
    length (value t3') = length (value t3) /\
    (forall i v1 v2,
       value t1 !! i = Some v1 -> value t2 !! i = Some v2 ->
       value t3' !! i =
         Some (quantized_product dt multiplier shift
                 (zero_point t1) (zero_point t2) (zero_point t3) v1 v2)) /\
    forall i, (length (value t1) <= i)%nat -> value t3' !! i = value t3 !! i.
Proof.
  intros H1 H2 H3 Hl2 Hl3 Hdt.
  destruct (decompose_supported dt (real_scale t1 t2 t3) Hdt)
    as (multiplier & shift & Hdec).
  rewrite (multiply_run _ _ _ _ _ _ _ _ H1 H2 H3), Hdec.
  assert (reached t1 t2 t3 = length (value t1)) as -> by (unfold reached; lia).
  rewrite Nat.ltb_irrefl.
  eexists _, _, multiplier, shift. split; [reflexivity |].
  split; [reflexivity |]. split; [reflexivity |].
  split; [apply lookup_final_output |]. cbn [set_value value].
  pose proof (length_outputs_equal dt multiplier shift t1 t2 t3).
  split; [apply mixed_length; lia |]. split.
  - intros i v1 v2 Hv1 Hv2. apply lookup_lt_Some in Hv1 as Hlt.
    rewrite mixed_lookup_written by lia.
    apply lookup_outputs; assumption.
  - intros i Hi. apply mixed_lookup_kept; lia.
Qed.

Lemma multiply_longer_output_witness :
  exists st' t3' multiplier shift,
    decompose np_int32
      (real_scale (unit_tensor [1; 2] 0) (unit_tensor [3; 4] 0)
                  (unit_tensor [9; 9; 9] 0)) = inr (multiplier, shift) /\
    multiply 0%nat 1%nat 2%nat np_int32
      (call_state (unit_tensor [1; 2] 0) (unit_tensor [3; 4] 0)
                  (unit_tensor [9; 9; 9] 0)) = (st', inr tt) /\
    writes st' = [(2%nat, 0%nat); (2%nat, 1%nat)] /\
    heap st' !! 2%nat = Some t3' /\
    length (value t3') = 3%nat /\
    (forall i v1 v2,
       [1; 2] !! i = Some v1 -> [3; 4] !! i = Some v2 ->
       value t3' !! i = Some (quantized_product np_int32 multiplier shift 0 0 0 v1 v2)) /\
    forall i, (2 <= i)%nat -> value t3' !! i = [9; 9; 9] !! i.
Proof.
  apply (multiply_longer_output 0%nat 1%nat 2%nat np_int32
           (call_state (unit_tensor [1; 2] 0) (unit_tensor [3; 4] 0)
                       (unit_tensor [9; 9; 9] 0))
           (unit_tensor [1; 2] 0) (unit_tensor [3; 4] 0) (unit_tensor [9; 9; 9] 0));
    first [left; reflexivity | vm_compute; reflexivity | cbn; lia].
Defined.

(** C9, as stated, fails.  With an output of three elements for inputs of
    two and a datatype other than [np.int32] and [np.int16], the call does
    not complete: it ends in [AssertionError] and writes nothing. *)
Lemma multiply_longer_output_asserts :
  multiply 0%nat 1%nat 2%nat (np_other 8)
    (call_state (unit_tensor [1; 2] 0) (unit_tensor [3; 4] 0)
                (unit_tensor [9; 9; 9] 0))
  = (call_state (unit_tensor [1; 2] 0) (unit_tensor [3; 4] 0)
                (unit_tensor [9; 9; 9] 0),
     inl AssertionError).
Proof. vm_compute. reflexivity. Qed.

(** C8 (amended).  Whenever the output tensor is an object other than the
    two inputs, a call, however it ends, leaves both input tensors as they
    were (values, scale and zero-point) and every other object too; of the
    output tensor only the value buffer changes, its scale, zero-point and
    element count staying; the buffer elements are written one by one in
    index order, from index 0 up to some index [k], and the elements from
    [k] on are as they were. *)
Theorem multiply_frame `{Platform} tensor1 tensor2 output_tensor dt st t1 t2 t3 :
  heap st !! tensor1 = Some t1 ->
  heap st !! tensor2 = Some t2 ->
  heap st !! output_tensor = Some t3 ->
  output_tensor <> tensor1 ->
  output_tensor <> tensor2 ->
  exists st' outcome values k,
    multiply tensor1 tensor2 output_tensor dt st = (st', outcome) /\
    heap st' !! tensor1 = Some t1 /\
    heap st' !! tensor2 = Some t2 /\
    (forall l, l <> output_tensor -> heap st' !! l = heap st !! l) /\
    heap st' !! output_tensor = Some (set_value t3 values) /\
    length values = length (value t3) /\
    writes st' = writes st ++ written output_tensor k /\
    forall i, (k <= i)%nat -> values !! i = value t3 !! i.
Proof.
  intros H1 H2 H3 Hn1 Hn2.
  rewrite (multiply_run _ _ _ _ _ _ _ _ H1 H2 H3).
  destruct (decompose dt (real_scale t1 t2 t3)) as [e | [multiplier shift]].
  - exists st, (inl e), (value t3), 0%nat.
    rewrite set_value_id. unfold written. cbn [seq map]. rewrite app_nil_r.
    repeat split; auto.
  - pose proof (length_outputs_equal dt multiplier shift t1 t2 t3).
    assert (reached t1 t2 t3 <= length (value t1) `min` length (value t2)
            /\ reached t1 t2 t3 <= length (value t3))%nat as [Hr1 Hr2]
      by (unfold reached; lia).
    eexists _, _, _, (reached t1 t2 t3). split; [reflexivity |].
    rewrite !lookup_final_other by congruence.
    split; [assumption |]. split; [assumption |].
    split; [intros l Hl; apply lookup_final_other; assumption |].
    split; [apply lookup_final_output |].
    split; [apply mixed_length; lia |].
    split; [reflexivity |].
    intros i Hi. apply mixed_lookup_kept; lia.
Qed.

Lemma multiply_frame_witness :
  exists st' outcome values k,
    multiply 0%nat 1%nat 2%nat np_int32
      (call_state scenario_lhs scenario_rhs scenario_out) = (st', outcome) /\
    heap st' !! 0%nat = Some scenario_lhs /\
    heap st' !! 1%nat = Some scenario_rhs /\
    (forall l, l <> 2%nat ->
       heap st' !! l = heap (call_state scenario_lhs scenario_rhs scenario_out) !! l) /\
    heap st' !! 2%nat = Some (set_value scenario_out values) /\
    length values = 2%nat /\
    writes st' = written 2%nat k /\
    forall i, (k <= i)%nat -> values !! i = [0; 0] !! i.
Proof.
  apply (multiply_frame 0%nat 1%nat 2%nat np_int32
           (call_state scenario_lhs scenario_rhs scenario_out)
           scenario_lhs scenario_rhs scenario_out);
    first [reflexivity | discriminate].
Defined.

(** C8, as stated, fails.  A call whose output tensor is its first input,
    with matching counts, the default working width and positive scales,
    completes and overwrites that input: its element 10 becomes 2. *)
Lemma multiply_in_place_overwrites_input :
  snd (multiply 0%nat 1%nat 0%nat np_int32
         (in_place_state scenario_lhs scenario_rhs)) = inr tt /\
  buffer 0%nat (in_place_state scenario_lhs scenario_rhs) = Some [10; 127] /\
  buffer 0%nat
    (fst (multiply 0%nat 1%nat 0%nat np_int32
            (in_place_state scenario_lhs scenario_rhs))) = Some [2; 127].
Proof. vm_compute. repeat split. Qed.

(** ** The identity scale *)

Lemma div_eucl_multiple a b : 0 < b -> Z.div_eucl (b * a) b = (a, 0).
Proof.
  intros Hb.
  pose proof (Z.div_mul a b ltac:(lia)) as Hq.
  pose proof (Z.mod_mul a b ltac:(lia)) as Hr.
  rewrite (Z.mul_comm a b) in Hq, Hr.
  unfold Z.div, Z.modulo in Hq, Hr.
  destruct (Z.div_eucl (b * a) b) as [q r]. congruence.
Qed.

(** A finite non-zero float divided by itself is exactly 1. *)
Lemma f64_div_self s m e :
  f64_div (S754_finite s m e) (S754_finite s m e) = f64_one.
Proof.
  unfold f64_div, SFdiv.
  assert (SFdiv_core_binary prec emax (Z.pos m) e (Z.pos m) e
          = (2 ^ 53, -53, loc_Exact)) as ->.
  { unfold SFdiv_core_binary. rewrite !Z.sub_diag.
    change (Z.min (fexp prec emax 0) 0) with (-53).
    change (0 - -53) with 53. cbv iota.
    rewrite Z.shiftl_mul_pow2, div_eucl_multiple by lia.
    unfold new_location, new_location_even, new_location_odd.
    destruct (Z.even (Z.pos m)); reflexivity. }
  destruct s; vm_compute; reflexivity.
Qed.

Lemma decompose_one `{Platform} dt :
  dt = np_int32 \/ dt = np_int16 ->
  decompose dt f64_one = inr (2 ^ (width dt - 2), 1).
Proof. intros [-> | ->]; vm_compute; reflexivity. Qed.

(** With the multiplier [2^(N-2)] and the shift 1 of the scale 1, and
    zero-points 0, the stored element is the product rounded up to even,
    then clamped. *)
Lemma identity_element dt v1 v2 :
  dt = np_int32 \/ dt = np_int16 ->
  in_range (width dt) (v1 * v2) = true ->
  Z.abs (quantized_product dt (2 ^ (width dt - 2)) 1 0 0 0 v1 v2
         - clamp (v1 * v2) (-128) 127) <= 1.
Proof.
  intros Hdt Hfit. unfold quantized_product.
  rewrite !Z.sub_0_r, wrap_id by auto using supported_width_ge.
  apply in_range_spec in Hfit.
  set (p := v1 * v2) in *.
  assert (multiply_high p (2 ^ (width dt - 2)) (width dt) = (p + 1) / 2) as ->.
  { unfold multiply_high, rounded_high_half, clamp, int_min, int_max.
    rewrite Z.shiftr_div_pow2 by (destruct Hdt as [-> | ->]; cbn; lia).
    replace (p * 2 ^ (width dt - 2) + 2 ^ (width dt - 2))
      with ((p + 1) * 2 ^ (width dt - 2)) by lia.
    replace (2 ^ (width dt - 1)) with (2 * 2 ^ (width dt - 2)) in *
      by (destruct Hdt as [-> | ->]; reflexivity).
    rewrite Z.div_mul_cancel_r by (destruct Hdt as [-> | ->]; cbn; lia).
    assert (2 <= 2 ^ (width dt - 2)) by (destruct Hdt as [-> | ->]; cbn; lia).
    pose proof (Z.div_mod (p + 1) 2 ltac:(lia)).
    pose proof (Z.mod_pos_bound (p + 1) 2 ltac:(lia)).
    lia. }
  unfold apply_shift, clamp. cbn [Z.leb Z.compare Z.pow Z.pow_pos Pos.iter Z.mul Pos.mul].
  pose proof (Z.div_mod (p + 1) 2 ltac:(lia)).
  pose proof (Z.mod_pos_bound (p + 1) 2 ltac:(lia)).
  lia.
Qed.

(** C7 (amended).  When [lhs.scale * rhs.scale] equals [output.scale], the
    three zero-points are 0 and every product [lhs.values[i] * rhs.values[i]]
    fits the working width, each output element is within one unit (the
    rounding of the halved product) of that product clamped to
    [[-128, 127]]. *)
Theorem multiply_identity_scale `{Platform} tensor1 tensor2 output_tensor dt st t1 t2 t3 :
  heap st !! tensor1 = Some t1 ->
  heap st !! tensor2 = Some t2 ->
  heap st !! output_tensor = Some t3 ->
  length (value t2) = length (value t1) ->
  length (value t3) = length (value t1) ->
  dt = np_int32 \/ dt = np_int16 ->
  f64_mul (scale t1) (scale t2) = scale t3 ->
  f64_positive (scale t3) = true ->
  zero_point t1 = 0 -> zero_point t2 = 0 -> zero_point t3 = 0 ->
  forallb (in_range (width dt)) (zip_with Z.mul (value t1) (value t2)) = true ->
  exists st' t3',
    multiply tensor1 tensor2 output_tensor dt st = (st', inr tt) /\
    heap st' !! output_tensor = Some t3' /\
    forall i v1 v2,
      value t1 !! i = Some v1 -> value t2 !! i = Some v2 ->
      exists o,
        value t3' !! i = Some o /\
        Z.abs (o - clamp (v1 * v2) (-128) 127) <= 1.
Proof.
  intros H1 H2 H3 Hl2 Hl3 Hdt Hmul Hpos Hz1 Hz2 Hz3 Hfit.
  assert (real_scale t1 t2 t3 = f64_one) as Hrs.
  { unfold real_scale. rewrite Hmul.
    destruct (positive_inv _ Hpos) as (m & e & -> & _). apply f64_div_self. }
  pose proof (decompose_one dt Hdt) as Hdec. rewrite <- Hrs in Hdec.
  destruct (multiply_equal_counts _ _ _ _ _ _ _ _ _ _ H1 H2 H3 Hl2 Hl3 Hdec)
    as [Hrun Hel].
  eexists _, _. split; [exact Hrun |]. split; [apply lookup_final_output |].
  intros i v1 v2 Hv1 Hv2. cbn [set_value value].
  eexists. split; [apply Hel; eassumption |].
  rewrite Hz1, Hz2, Hz3. apply identity_element; [assumption |].
  rewrite forallb_forall in Hfit. apply Hfit.
  apply list_elem_of_In, (list_elem_of_lookup_2 _ i).
  rewrite lookup_zip_with, Hv1. cbn. rewrite Hv2. reflexivity.
Qed.

Lemma multiply_identity_scale_witness :
  exists st' t3',
    multiply 0%nat 1%nat 2%nat np_int16
      (call_state (unit_tensor [5; -7; 100] 0) (unit_tensor [5; 3; 100] 0)
                  (unit_tensor [9; 9; 9] 0)) = (st', inr tt) /\
    heap st' !! 2%nat = Some t3' /\
    forall i v1 v2,
      [5; -7; 100] !! i = Some v1 -> [5; 3; 100] !! i = Some v2 ->
      exists o,
        value t3' !! i = Some o /\
        Z.abs (o - clamp (v1 * v2) (-128) 127) <= 1.
Proof.
  apply (multiply_identity_scale 0%nat 1%nat 2%nat np_int16
           (call_state (unit_tensor [5; -7; 100] 0) (unit_tensor [5; 3; 100] 0)
                       (unit_tensor [9; 9; 9] 0))
           (unit_tensor [5; -7; 100] 0) (unit_tensor [5; 3; 100] 0)
           (unit_tensor [9; 9; 9] 0));
    first [right; reflexivity | vm_compute; reflexivity].
Defined.

Example identity_scale_outputs :
  buffer 2%nat
    (fst (multiply 0%nat 1%nat 2%nat np_int16
            (call_state (unit_tensor [5; -7; 100] 0) (unit_tensor [5; 3; 100] 0)
                        (unit_tensor [9; 9; 9] 0)))) = Some [26; -20; 127].
Proof. vm_compute. reflexivity. Qed.

(** C7, as stated, fails.  With elements 65536 on both sides, scales 1,
    zero-points 0 and the default 32-bit working width, the product [2^32]
    does not fit: [temp] is 0 and the element stored is 0, where the product
    clamped to the storage range is 127. *)
Lemma multiply_identity_scale_wraps :
  f64_mul (scale (unit_tensor [65536] 0)) (scale (unit_tensor [65536] 0))
  = scale (unit_tensor [9] 0) /\
  snd (multiply 0%nat 1%nat 2%nat np_int32
         (call_state (unit_tensor [65536] 0) (unit_tensor [65536] 0)
                     (unit_tensor [9] 0))) = inr tt /\
  buffer 2%nat
    (fst (multiply 0%nat 1%nat 2%nat np_int32
            (call_state (unit_tensor [65536] 0) (unit_tensor [65536] 0)
                        (unit_tensor [9] 0)))) = Some [0] /\
  clamp (65536 * 65536) (-128) 127 = 127.
Proof. vm_compute. repeat split. Qed.

(** * Further properties of [multiply] *)

(** ** Helpers *)

Lemma f64_mul_comm x y : f64_mul x y = f64_mul y x.
Proof.
  unfold f64_mul.
  destruct x as [sx | sx | | sx mx ex], y as [sy | sy | | sy my ey];
    cbn [SFmul]; rewrite ?(xorb_comm sy sx); try reflexivity.
  rewrite (Pos.mul_comm my mx), (Z.add_comm ey ex). reflexivity.
Qed.

Lemma quantized_product_comm dt multiplier shift zp1 zp2 zpo v1 v2 :
  quantized_product dt multiplier shift zp1 zp2 zpo v1 v2
  = quantized_product dt multiplier shift zp2 zp1 zpo v2 v1.
Proof. unfold quantized_product. rewrite Z.mul_comm. reflexivity. Qed.

Lemma outputs_comm dt multiplier shift t1 t2 t3 :
  outputs dt multiplier shift t1 t2 t3 = outputs dt multiplier shift t2 t1 t3.
Proof.
  unfold outputs.
  generalize (value t1) (value t2). intros l1.
  induction l1 as [| a l1 IH]; intros [| b l2]; cbn [zip_with]; try reflexivity.
  rewrite IH, quantized_product_comm. reflexivity.
Qed.

Lemma quantized_product_int8 dt multiplier shift zp1 zp2 zpo v1 v2 :
  -128 <= quantized_product dt multiplier shift zp1 zp2 zpo v1 v2 <= 127.
Proof. unfold quantized_product, clamp. lia. Qed.

Lemma outputs_int8 dt multiplier shift t1 t2 t3 i o :
  outputs dt multiplier shift t1 t2 t3 !! i = Some o -> -128 <= o <= 127.
Proof.
  unfold outputs. rewrite lookup_zip_with.
  destruct (value t1 !! i) as [v1 |]; [| discriminate]. cbn.
  destruct (value t2 !! i) as [v2 |]; [| discriminate]. cbn.
  intros [= <-]. apply quantized_product_int8.
Qed.

Lemma reached_le t1 t2 t3 :
  (reached t1 t2 t3 <= length (value t1) `min` length (value t2))%nat /\
  (reached t1 t2 t3 <= length (value t3))%nat.
Proof. unfold reached. lia. Qed.

(** ** The range of the elements written *)

(** X1.  Whatever the arguments and however the call ends, every output
    element it has written lies in the signed 8-bit range. *)
Theorem multiply_writes_int8 `{Platform} tensor1 tensor2 output_tensor dt st t1 t2 t3 :
  heap st !! tensor1 = Some t1 ->
  heap st !! tensor2 = Some t2 ->
  heap st !! output_tensor = Some t3 ->
  exists st' outcome values k,
    multiply tensor1 tensor2 output_tensor dt st = (st', outcome) /\
    heap st' !! output_tensor = Some (set_value t3 values) /\
    writes st' = writes st ++ written output_tensor k /\
    forall i o, (i < k)%nat -> values !! i = Some o -> -128 <= o <= 127.
Proof.
  intros H1 H2 H3. rewrite (multiply_run _ _ _ _ _ _ _ _ H1 H2 H3).
  destruct (decompose dt (real_scale t1 t2 t3)) as [e | [multiplier shift]].
  - exists st, (inl e), (value t3), 0%nat.
    rewrite set_value_id. unfold written. cbn [seq map]. rewrite app_nil_r.
    split; [reflexivity |]. split; [assumption |]. split; [reflexivity |].
    intros i o Hi. lia.
  - destruct (reached_le t1 t2 t3) as [Hr1 Hr2].
    pose proof (length_outputs_equal dt multiplier shift t1 t2 t3) as Hlen.
    eexists _, _, _, (reached t1 t2 t3). split; [reflexivity |].
    split; [apply lookup_final_output |]. split; [reflexivity |].
    intros i o Hi Ho.
    rewrite mixed_lookup_written in Ho by lia.
    eapply outputs_int8; eassumption.
Qed.

Lemma multiply_writes_int8_witness :
  exists st' outcome values k,
    multiply 0%nat 1%nat 2%nat np_int32
      (call_state scenario_lhs scenario_rhs scenario_out) = (st', outcome) /\
    heap st' !! 2%nat = Some (set_value scenario_out values) /\
    writes st' = written 2%nat k /\
    forall i o, (i < k)%nat -> values !! i = Some o -> -128 <= o <= 127.
Proof.
  apply (multiply_writes_int8 0%nat 1%nat 2%nat np_int32
           (call_state scenario_lhs scenario_rhs scenario_out)
           scenario_lhs scenario_rhs scenario_out); reflexivity.
Defined.

(** ** Which count governs *)

(** X2.  The loop runs over the element count of the first input alone.  A
    call whose decomposition succeeds completes exactly when neither the
    second input nor the output has fewer elements than the first input;
    otherwise it ends in [IndexError]. *)
Theorem multiply_completes_iff `{Platform} tensor1 tensor2 output_tensor dt st t1 t2 t3
    multiplier shift :
  heap st !! tensor1 = Some t1 ->
  heap st !! tensor2 = Some t2 ->
  heap st !! output_tensor = Some t3 ->
  decompose dt (real_scale t1 t2 t3) = inr (multiplier, shift) ->
  snd (multiply tensor1 tensor2 output_tensor dt st) =
    if ((length (value t1) <=? length (value t2))%nat
        && (length (value t1) <=? length (value t3))%nat)%bool
    then inr tt else inl IndexError.
Proof.
  intros H1 H2 H3 Hdec.
  rewrite (multiply_run _ _ _ _ _ _ _ _ H1 H2 H3), Hdec. cbn [snd].
  unfold reached.
  destruct (Nat.leb_spec (length (value t1)) (length (value t2)));
    destruct (Nat.leb_spec (length (value t1)) (length (value t3)));
    cbn [andb];
    destruct (Nat.ltb_spec
                (length (value t1) `min` (length (value t2) `min` length (value t3)))
                (length (value t1)));
    (reflexivity || lia).
Qed.

Lemma multiply_completes_iff_witness :
  snd (multiply 0%nat 1%nat 2%nat np_int32
         (call_state (unit_tensor [1; 2] 0) (unit_tensor [3] 0)
                     (unit_tensor [9; 9; 9] 0))) = inl IndexError.
Proof.
  apply (multiply_completes_iff 0%nat 1%nat 2%nat np_int32
           (call_state (unit_tensor [1; 2] 0) (unit_tensor [3] 0)
                       (unit_tensor [9; 9; 9] 0))
           (unit_tensor [1; 2] 0) (unit_tensor [3] 0) (unit_tensor [9; 9; 9] 0)
           (2 ^ 30) 1); vm_compute; reflexivity.
Defined.

(** ** Swapping the inputs *)

(** X4.  With inputs of equal element count, swapping the two inputs changes
    nothing: the product of the scales and the product of the offsets both
    commute, so the two calls end in the same state with the same outcome. *)
Theorem multiply_inputs_commute `{Platform} tensor1 tensor2 output_tensor dt st t1 t2 t3 :
  heap st !! tensor1 = Some t1 ->
  heap st !! tensor2 = Some t2 ->
  heap st !! output_tensor = Some t3 ->
  length (value t2) = length (value t1) ->
  multiply tensor1 tensor2 output_tensor dt st
  = multiply tensor2 tensor1 output_tensor dt st.
Proof.
  intros H1 H2 H3 Hlen.
  rewrite (multiply_run _ _ _ _ _ _ _ _ H1 H2 H3),
          (multiply_run _ _ _ _ _ _ _ _ H2 H1 H3).
  assert (real_scale t2 t1 t3 = real_scale t1 t2 t3) as ->
    by (unfold real_scale; rewrite f64_mul_comm; reflexivity).
  destruct (decompose dt (real_scale t1 t2 t3)) as [e | [multiplier shift]];
    [reflexivity |].
  assert (reached t2 t1 t3 = reached t1 t2 t3) as -> by (unfold reached; lia).
  unfold final_state. rewrite (outputs_comm dt multiplier shift t2 t1 t3), Hlen.
  reflexivity.
Qed.

Lemma multiply_inputs_commute_witness :
  multiply 0%nat 1%nat 2%nat np_int32
    (call_state scenario_lhs scenario_rhs scenario_out)
  = multiply 1%nat 0%nat 2%nat np_int32
      (call_state scenario_lhs scenario_rhs scenario_out).
Proof.
  apply (multiply_inputs_commute 0%nat 1%nat 2%nat np_int32
           (call_state scenario_lhs scenario_rhs scenario_out)
           scenario_lhs scenario_rhs scenario_out); reflexivity.
Defined.

(** ** Calling twice *)

(** X5.  When the output tensor is neither input, a second identical call
    ends as the first did and leaves the objects as the first call left
    them: the kernel is idempotent. *)
Theorem multiply_idempotent `{Platform} tensor1 tensor2 output_tensor dt st t1 t2 t3 st1 r1 :
  heap st !! tensor1 = Some t1 ->
  heap st !! tensor2 = Some t2 ->
  heap st !! output_tensor = Some t3 ->
  output_tensor <> tensor1 ->
  output_tensor <> tensor2 ->
  multiply tensor1 tensor2 output_tensor dt st = (st1, r1) ->
  exists st2,
    multiply tensor1 tensor2 output_tensor dt st1 = (st2, r1) /\
    heap st2 = heap st1.
Proof.
  intros H1 H2 H3 Hn1 Hn2 Hrun.
  rewrite (multiply_run _ _ _ _ _ _ _ _ H1 H2 H3) in Hrun.
  destruct (decompose dt (real_scale t1 t2 t3)) as [e | [multiplier shift]] eqn:Hdec.
  - injection Hrun as <- <-. exists st. split; [| reflexivity].
    rewrite (multiply_run _ _ _ _ _ _ _ _ H1 H2 H3), Hdec. reflexivity.
  - injection Hrun as <- <-.
    destruct (reached_le t1 t2 t3) as [Hr1 Hr2].
    pose proof (length_outputs_equal dt multiplier shift t1 t2 t3) as Hlen.
    set (k := reached t1 t2 t3) in *.
    set (outs := outputs dt multiplier shift t1 t2 t3) in *.
    set (vs := take k outs ++ drop k (value t3)).
    set (st1 := final_state output_tensor dt multiplier shift t1 t2 t3 k st).
    assert (heap st1 !! tensor1 = Some t1) as G1
      by (unfold st1; rewrite lookup_final_other by congruence; assumption).
    assert (heap st1 !! tensor2 = Some t2) as G2
      by (unfold st1; rewrite lookup_final_other by congruence; assumption).
    assert (heap st1 !! output_tensor = Some (set_value t3 vs)) as G3
      by apply lookup_final_output.
    assert (length vs = length (value t3)) as Hvs by (apply mixed_length; lia).
    rewrite (multiply_run _ _ _ _ _ _ _ _ G1 G2 G3).
    change (real_scale t1 t2 (set_value t3 vs)) with (real_scale t1 t2 t3).
    rewrite Hdec.
    assert (reached t1 t2 (set_value t3 vs) = k) as ->
      by (unfold reached, k; cbn [set_value value]; rewrite Hvs; reflexivity).
    eexists. split; [reflexivity |].
    unfold final_state. cbn [heap].
    change (outputs dt multiplier shift t1 t2 (set_value t3 vs)) with outs.
    unfold st1, final_state. cbn [heap]. rewrite insert_insert_eq.
    fold outs. fold vs. f_equal. unfold set_value. cbn [value scale zero_point].
    f_equal. unfold vs at 1.
    rewrite drop_app_length' by (rewrite length_take; lia).
    fold vs. reflexivity.
Qed.

Lemma multiply_idempotent_witness :
  exists st2,
    multiply 0%nat 1%nat 2%nat np_int32
      (fst (multiply 0%nat 1%nat 2%nat np_int32
              (call_state scenario_lhs scenario_rhs scenario_out)))
    = (st2, inr tt) /\
    heap st2 =
      heap (fst (multiply 0%nat 1%nat 2%nat np_int32
                   (call_state scenario_lhs scenario_rhs scenario_out))).
Proof.
  apply (multiply_idempotent 0%nat 1%nat 2%nat np_int32
           (call_state scenario_lhs scenario_rhs scenario_out)
           scenario_lhs scenario_rhs scenario_out);
    first [discriminate | vm_compute; reflexivity].
Defined.

(** ** Computing in place *)

(** X6.  A call whose output tensor is its first input is sound: each
    element is read before it is overwritten, so the call stores in that
    tensor exactly the elements a call with a separate output tensor of the
    same scale, zero-point and element count stores there. *)
Theorem multiply_in_place `{Platform} tensor1 tensor2 other dt st t1 t2 t3 :
  heap st !! tensor1 = Some t1 ->
  heap st !! tensor2 = Some t2 ->
  heap st !! other = Some t3 ->
  length (value t2) = length (value t1) ->
  length (value t3) = length (value t1) ->
  scale t3 = scale t1 ->
  zero_point t3 = zero_point t1 ->
  dt = np_int32 \/ dt = np_int16 ->
  f64_finite (real_scale t1 t2 t1) = true ->
  exists st1 st2,
    multiply tensor1 tensor2 tensor1 dt st = (st1, inr tt) /\
    multiply tensor1 tensor2 other dt st = (st2, inr tt) /\
    buffer tensor1 st1 = buffer other st2.
Proof.
  intros H1 H2 H3 Hl2 Hl3 Hs Hz Hdt Hfin.
  destruct (decompose_total dt _ Hdt Hfin) as (multiplier & shift & Hdec).
  assert (real_scale t1 t2 t3 = real_scale t1 t2 t1) as Hrs
    by (unfold real_scale; rewrite Hs; reflexivity).
  pose proof Hdec as Hdec'. rewrite <- Hrs in Hdec'.
  destruct (multiply_equal_counts _ _ _ _ _ _ _ _ _ _ H1 H2 H1 Hl2 eq_refl Hdec)
    as [Hrun1 _].
  destruct (multiply_equal_counts _ _ _ _ _ _ _ _ _ _ H1 H2 H3 Hl2 Hl3 Hdec')
    as [Hrun2 _].
  eexists _, _. split; [exact Hrun1 |]. split; [exact Hrun2 |].
  unfold buffer. rewrite !lookup_final_output. cbn [fmap option_fmap option_map set_value value].
  assert (outputs dt multiplier shift t1 t2 t3 = outputs dt multiplier shift t1 t2 t1) as ->
    by (unfold outputs; rewrite Hz; reflexivity).
  rewrite !drop_ge by lia. reflexivity.
Qed.

Lemma multiply_in_place_witness :
  exists st1 st2,
    multiply 0%nat 1%nat 0%nat np_int32
      (call_state scenario_lhs scenario_rhs (set_value scenario_lhs [0; 0]))
    = (st1, inr tt) /\
    multiply 0%nat 1%nat 2%nat np_int32
      (call_state scenario_lhs scenario_rhs (set_value scenario_lhs [0; 0]))
    = (st2, inr tt) /\
    buffer 0%nat st1 = buffer 2%nat st2.
Proof.
  apply (multiply_in_place 0%nat 1%nat 2%nat np_int32
           (call_state scenario_lhs scenario_rhs (set_value scenario_lhs [0; 0]))
           scenario_lhs scenario_rhs (set_value scenario_lhs [0; 0]));
    first [left; reflexivity | vm_compute; reflexivity].
Defined.

(** ** What no call changes *)

(** X7.  Whatever the arguments, aliased or not, and however the call ends,
    every object keeps its scale, its zero-point and its element count, no
    object appears or disappears, and an object other than the output tensor
    is left as it was. *)
Theorem multiply_preserves_attributes `{Platform} tensor1 tensor2 output_tensor dt st t1 t2 t3 l :
  heap st !! tensor1 = Some t1 ->
  heap st !! tensor2 = Some t2 ->
  heap st !! output_tensor = Some t3 ->
  match heap st !! l with
  | Some t =>
      exists t',
        heap (fst (multiply tensor1 tensor2 output_tensor dt st)) !! l = Some t' /\
        scale t' = scale t /\
        zero_point t' = zero_point t /\
        length (value t') = length (value t) /\
        (l <> output_tensor -> t' = t)
  | None => heap (fst (multiply tensor1 tensor2 output_tensor dt st)) !! l = None
  end.
Proof.
  intros H1 H2 H3. rewrite (multiply_run _ _ _ _ _ _ _ _ H1 H2 H3).
  destruct (decompose dt (real_scale t1 t2 t3)) as [e | [multiplier shift]]; cbn [fst].
  - destruct (heap st !! l) as [t |]; [| reflexivity]. exists t. auto.
  - destruct (heap st !! l) as [t |] eqn:Hl.
    + destruct (lookup_after output_tensor dt multiplier shift st t1 t2 t3 H3
                  l t (reached t1 t2 t3) Hl (le_n _))
        as (t' & Ht' & Hz & Hs & Hlen & _).
      exists t'. repeat (split; [assumption |]).
      intros Hne. rewrite lookup_final_other in Ht' by assumption. congruence.
    + rewrite lookup_final_other; [assumption |]. congruence.
Qed.

Lemma multiply_preserves_attributes_witness :
  exists t',
    heap (fst (multiply 0%nat 1%nat 0%nat np_int32
                 (in_place_state scenario_lhs scenario_rhs))) !! 0%nat = Some t' /\
    scale t' = f64_0351 /\
    zero_point t' = 2 /\
    length (value t') = 2%nat /\
    (0%nat <> 0%nat -> t' = scenario_lhs).
Proof.
  apply (multiply_preserves_attributes 0%nat 1%nat 0%nat np_int32
           (in_place_state scenario_lhs scenario_rhs)
           scenario_lhs scenario_rhs scenario_lhs 0%nat); reflexivity.
Defined.

(** ** The outcome of a call *)

(** X8.  For an output scale other than zero, the outcome of a call is
    decided by the datatype and the element counts alone: [AssertionError]
    for a datatype other than [np.int32] and [np.int16]; otherwise
    [IndexError] when the second input or the output has fewer elements than
    the first input; otherwise the call completes.  Nothing else is raised:
    a real scale that is negative, zero, infinite or NaN goes through the
    cast and the loop, and the multiply-high is always called with operands
    within the working width. *)
Theorem multiply_outcome `{Platform} tensor1 tensor2 output_tensor dt st t1 t2 t3 :
  heap st !! tensor1 = Some t1 ->
  heap st !! tensor2 = Some t2 ->
  heap st !! output_tensor = Some t3 ->
  f64_nonzero (scale t3) = true ->
  snd (multiply tensor1 tensor2 output_tensor dt st) =
    match multiplier_shift dt with
    | None => inl AssertionError
    | Some _ =>
        if ((length (value t1) <=? length (value t2))%nat
            && (length (value t1) <=? length (value t3))%nat)%bool
        then inr tt else inl IndexError
    end.
Proof.
  intros H1 H2 H3 _. rewrite (multiply_run _ _ _ _ _ _ _ _ H1 H2 H3).
  destruct (multiplier_shift dt) as [ms |] eqn:Hms.
  - assert (dt = np_int32 \/ dt = np_int16) as Hdt
      by (destruct dt; cbn in Hms; auto; discriminate).
    destruct (decompose_supported dt (real_scale t1 t2 t3) Hdt)
      as (multiplier & shift & ->).
    cbn [snd]. unfold reached.
    destruct (Nat.leb_spec (length (value t1)) (length (value t2)));
      destruct (Nat.leb_spec (length (value t1)) (length (value t3)));
      cbn [andb];
      destruct (Nat.ltb_spec
                  (length (value t1) `min` (length (value t2) `min` length (value t3)))
                  (length (value t1)));
      (reflexivity || lia).
  - unfold decompose. destruct (np_frexp _). rewrite Hms. reflexivity.
Qed.

Lemma multiply_outcome_witness :
  snd (multiply 0%nat 1%nat 2%nat np_int32
         (call_state {| value := [10; 20]; scale := S754_infinity false; zero_point := 0 |}
                     (unit_tensor [3; 4] 0) (unit_tensor [9; 9] 5))) = inr tt.
Proof.
  apply (multiply_outcome 0%nat 1%nat 2%nat np_int32
           (call_state {| value := [10; 20]; scale := S754_infinity false; zero_point := 0 |}
                       (unit_tensor [3; 4] 0) (unit_tensor [9; 9] 5))
           {| value := [10; 20]; scale := S754_infinity false; zero_point := 0 |}
           (unit_tensor [3; 4] 0) (unit_tensor [9; 9] 5)); reflexivity.
Defined.

(** ** The decomposition under a change of sign or of exponent *)

(** X9.  The cast truncates toward zero, so the decomposition is odd in the
    real scale: negating a positive real scale negates the multiplier and
    keeps the shift. *)
Theorem decompose_negated `{Platform} dt rs multiplier shift :
  f64_positive rs = true ->
  decompose dt rs = inr (multiplier, shift) ->
  decompose dt (SFopp rs) = inr (- multiplier, shift).
Proof.
  intros Hpos Hdec. destruct (positive_inv rs Hpos) as (m & e & -> & Hb).
  destruct (decompose_inr _ _ _ _ Hdec) as [Hdt _].
  assert (exists ms, multiplier_shift dt = Some ms) as [ms Hms]
    by (destruct Hdt as [-> | ->]; cbn; eauto).
  destruct (decompose_finite dt ms false m e Hms Hb) as (p & _ & _ & Hp & Hpd).
  destruct (decompose_finite dt ms true m e Hms Hb) as (n & _ & _ & Hn & Hnd).
  cbn [SFopp negb]. rewrite Hnd. rewrite Hpd in Hdec.
  injection Hdec as <- <-. cbn [cond_Zopp]. rewrite Hn, <- Hp. reflexivity.
Qed.

Lemma decompose_negated_witness :
  decompose np_int32 (SFopp (S754_finite false 7218119947438010 (-60)))
  = inr (- 1720933901, -7).
Proof.
  apply (decompose_negated np_int32 (S754_finite false 7218119947438010 (-60))
           1720933901 (-7));
    vm_compute; reflexivity.
Defined.

(** X10.  The multiplier depends on the significand of the real scale alone:
    two real scales with the same significand, that is, differing by a power
    of two, get the same multiplier, and shifts that differ by the difference
    of their exponents. *)
Theorem decompose_same_significand `{Platform} dt s m e e' multiplier shift :
  bounded prec emax m e = true ->
  bounded prec emax m e' = true ->
  decompose dt (S754_finite s m e) = inr (multiplier, shift) ->
  decompose dt (S754_finite s m e') = inr (multiplier, shift + (e' - e)).
Proof.
  intros Hb Hb' Hdec.
  destruct (decompose_inr _ _ _ _ Hdec) as [Hdt _].
  assert (exists ms, multiplier_shift dt = Some ms) as [ms Hms]
    by (destruct Hdt as [-> | ->]; cbn; eauto).
  destruct (decompose_finite dt ms s m e Hms Hb) as (p & _ & _ & Hp & Hpd).
  destruct (decompose_finite dt ms s m e' Hms Hb') as (n & _ & _ & Hn & Hnd).
  rewrite Hnd. rewrite Hpd in Hdec. injection Hdec as <- <-.
  rewrite Hn, <- Hp. do 2 f_equal. lia.
Qed.

Lemma decompose_same_significand_witness :
  decompose np_int32 (S754_finite false 7218119947438010 (-50))
  = inr (1720933901, -7 + (-50 - -60)).
Proof.
  apply (decompose_same_significand np_int32 false 7218119947438010 (-60) (-50)
           1720933901 (-7));
    vm_compute; reflexivity.
Defined.

(** X11.  A real scale with at most [N - 1] significant bits (a normal
    number whose significand has its low [54 - N] bits zero) is decomposed
    without error: [multiplier / 2^(N-1) * 2^shift] is the real scale. *)
Theorem decompose_exact `{Platform} dt m e multiplier shift :
  bounded prec emax m e = true ->
  digits2_pos m = 53%positive ->
  Z.pos m mod 2 ^ (54 - width dt) = 0 ->
  decompose dt (S754_finite false m e) = inr (multiplier, shift) ->
  (f64_value (S754_finite false m e)
   == inject_Z multiplier / 2 ^ (width dt - 1) * 2 ^ shift)%Q.
Proof.
  intros Hb Hd Hmod Hdec.
  destruct (decompose_inr _ _ _ _ Hdec) as [Hdt _].
  assert (exists ms, multiplier_shift dt = Some ms) as [ms Hms]
    by (destruct Hdt as [-> | ->]; cbn; eauto).
  pose proof (supported_shift _ _ Hms) as Hms'.
  rewrite (supported_width _ _ Hms) in *.
  replace (54 - (ms + 1)) with (53 - ms) in Hmod by lia.
  replace (ms + 1 - 1) with ms by lia.
  destruct (decompose_finite dt ms false m e Hms Hb) as (p & Hfr & _ & Hp & Hpd).
  rewrite Hpd in Hdec. injection Hdec as <- <-. cbn [cond_Zopp].
  rewrite Hd in Hp. cbn in Hp. rewrite Z.mul_1_r in Hp.
  injection Hp as ->.
  rewrite (f64_value_frexp false m e _ _ Hb Hfr).
  apply Qmult_comp; [| reflexivity].
  assert (0 < 2 ^ (53 - ms)) as HD by (apply pow2_gt_0; lia).
  pose proof (Z.div_mod (Z.pos m) (2 ^ (53 - ms)) ltac:(lia)) as Hdm.
  rewrite Hmod, Z.add_0_r in Hdm.
  set (q := Z.pos m / 2 ^ (53 - ms)) in *.
  pose proof (mantissa_scaled m ms ltac:(lia)) as Hsc.
  rewrite Hdm in Hsc at 1.
  rewrite inject_Z_mult in Hsc.
  assert (~ inject_Z (2 ^ (53 - ms)) == 0)%Q as Hnz.
  { intros H0. unfold Qeq, inject_Z in H0. cbn [Qnum Qden] in H0. lia. }
  pose proof (pow2_pos ms) as HP.
  assert (f64_value (S754_finite false m (-53)) * 2 ^ ms == inject_Z q)%Q as Hq.
  { rewrite Hsc. field. assumption. }
  rewrite <- Hq. field. lra.
Qed.

Lemma decompose_exact_witness :
  (f64_value (S754_finite false (3 * 2 ^ 51) (-52))
   == inject_Z (3 * 2 ^ 29) / 2 ^ (width np_int32 - 1) * 2 ^ 1)%Q.
Proof.
  apply (decompose_exact np_int32 (3 * 2 ^ 51) (-52) (3 * 2 ^ 29) 1);
    vm_compute; reflexivity.
Defined.

(** ** Running on slices *)

Lemma multiply_buffer `{Platform} tensor1 tensor2 output_tensor dt st t1 t2 t3
    multiplier shift :
  heap st !! tensor1 = Some t1 ->
  heap st !! tensor2 = Some t2 ->
  heap st !! output_tensor = Some t3 ->
  length (value t2) = length (value t1) ->
  length (value t3) = length (value t1) ->
  decompose dt (real_scale t1 t2 t3) = inr (multiplier, shift) ->
  snd (multiply tensor1 tensor2 output_tensor dt st) = inr tt /\
  buffer output_tensor (fst (multiply tensor1 tensor2 output_tensor dt st))
  = Some (outputs dt multiplier shift t1 t2 t3).
Proof.
  intros H1 H2 H3 Hl2 Hl3 Hdec.
  destruct (multiply_equal_counts _ _ _ _ _ _ _ _ _ _ H1 H2 H3 Hl2 Hl3 Hdec)
    as [-> _].
  split; [reflexivity |]. cbn [fst]. unfold buffer.
  rewrite lookup_final_output. cbn [fmap option_fmap option_map set_value value].
  rewrite drop_ge, app_nil_r, take_ge by (rewrite ?length_outputs_equal; lia).
  reflexivity.
Qed.

(** X12.  The elements are independent of one another: cutting the three
    buffers at the same index and running the kernel on the two slices
    gives, put end to end, the output buffer of the run on the whole. *)
Theorem multiply_slices `{Platform} tensor1 tensor2 output_tensor dt st st1 st2 t1 t2 t3
    a1 a2 b1 b2 c1 c2 :
  heap st !! tensor1 = Some t1 ->
  heap st !! tensor2 = Some t2 ->
  heap st !! output_tensor = Some t3 ->
  heap st1 !! tensor1 = Some (set_value t1 a1) ->
  heap st1 !! tensor2 = Some (set_value t2 b1) ->
  heap st1 !! output_tensor = Some (set_value t3 c1) ->
  heap st2 !! tensor1 = Some (set_value t1 a2) ->
  heap st2 !! tensor2 = Some (set_value t2 b2) ->
  heap st2 !! output_tensor = Some (set_value t3 c2) ->
  value t1 = a1 ++ a2 -> value t2 = b1 ++ b2 -> value t3 = c1 ++ c2 ->
  length b1 = length a1 -> length c1 = length a1 ->
  length b2 = length a2 -> length c2 = length a2 ->
  dt = np_int32 \/ dt = np_int16 ->
  f64_finite (real_scale t1 t2 t3) = true ->
  exists o1 o2,
    snd (multiply tensor1 tensor2 output_tensor dt st1) = inr tt /\
    snd (multiply tensor1 tensor2 output_tensor dt st2) = inr tt /\
    snd (multiply tensor1 tensor2 output_tensor dt st) = inr tt /\
    buffer output_tensor (fst (multiply tensor1 tensor2 output_tensor dt st1)) = Some o1 /\
    buffer output_tensor (fst (multiply tensor1 tensor2 output_tensor dt st2)) = Some o2 /\
    buffer output_tensor (fst (multiply tensor1 tensor2 output_tensor dt st))
    = Some (o1 ++ o2).
Proof.
  intros H1 H2 H3 F1 F2 F3 G1 G2 G3 Ha Hb Hc Lb1 Lc1 Lb2 Lc2 Hdt Hfin.
  destruct (decompose_total dt _ Hdt Hfin) as (multiplier & shift & Hdec).
  assert (length (value t2) = length (value t1)) as Hl2
    by (rewrite Ha, Hb, !length_app; lia).
  assert (length (value t3) = length (value t1)) as Hl3
    by (rewrite Ha, Hc, !length_app; lia).
  destruct (multiply_buffer _ _ _ _ _ _ _ _ _ _ H1 H2 H3 Hl2 Hl3 Hdec) as [R B].
  destruct (multiply_buffer tensor1 tensor2 output_tensor dt st1
              (set_value t1 a1) (set_value t2 b1) (set_value t3 c1)
              multiplier shift F1 F2 F3 Lb1 Lc1 Hdec) as [R1 B1].
  destruct (multiply_buffer tensor1 tensor2 output_tensor dt st2
              (set_value t1 a2) (set_value t2 b2) (set_value t3 c2)
              multiplier shift G1 G2 G3 Lb2 Lc2 Hdec) as [R2 B2].
  eexists _, _. repeat (split; [eassumption |]).
  rewrite B. f_equal. unfold outputs. cbn [set_value value zero_point].
  rewrite Ha, Hb. apply zip_with_app. congruence.
Qed.

Lemma multiply_slices_witness :
  exists o1 o2,
    snd (multiply 0%nat 1%nat 2%nat np_int32
           (call_state (unit_tensor [5] 0) (unit_tensor [5] 0) (unit_tensor [9] 0)))
    = inr tt /\
    snd (multiply 0%nat 1%nat 2%nat np_int32
           (call_state (unit_tensor [-7; 100] 0) (unit_tensor [3; 100] 0)
                       (unit_tensor [9; 9] 0))) = inr tt /\
    snd (multiply 0%nat 1%nat 2%nat np_int32
           (call_state (unit_tensor [5; -7; 100] 0) (unit_tensor [5; 3; 100] 0)
                       (unit_tensor [9; 9; 9] 0))) = inr tt /\
    buffer 2%nat
      (fst (multiply 0%nat 1%nat 2%nat np_int32
              (call_state (unit_tensor [5] 0) (unit_tensor [5] 0) (unit_tensor [9] 0))))
    = Some o1 /\
    buffer 2%nat
      (fst (multiply 0%nat 1%nat 2%nat np_int32
              (call_state (unit_tensor [-7; 100] 0) (unit_tensor [3; 100] 0)
                          (unit_tensor [9; 9] 0)))) = Some o2 /\
    buffer 2%nat
      (fst (multiply 0%nat 1%nat 2%nat np_int32
              (call_state (unit_tensor [5; -7; 100] 0) (unit_tensor [5; 3; 100] 0)
                          (unit_tensor [9; 9; 9] 0)))) = Some (o1 ++ o2).
Proof.
  apply (multiply_slices 0%nat 1%nat 2%nat np_int32
           (call_state (unit_tensor [5; -7; 100] 0) (unit_tensor [5; 3; 100] 0)
                       (unit_tensor [9; 9; 9] 0))
           (call_state (unit_tensor [5] 0) (unit_tensor [5] 0) (unit_tensor [9] 0))
           (call_state (unit_tensor [-7; 100] 0) (unit_tensor [3; 100] 0)
                       (unit_tensor [9; 9] 0))
           (unit_tensor [5; -7; 100] 0) (unit_tensor [5; 3; 100] 0)
           (unit_tensor [9; 9; 9] 0)
           [5] [-7; 100] [5] [3; 100] [9] [9; 9]);
    first [left; reflexivity | vm_compute; reflexivity].
Defined.

(** ** A vanishing multiplier *)

(** X13.  However small a finite real scale is, subnormal numbers included,
    [np.frexp] normalises it and the multiplier keeps [N - 2] significant
    bits: the multiplier is zero only for a real scale of zero, and is at
    least [2^(N-2)] in magnitude otherwise. *)
Theorem decompose_multiplier_zero `{Platform} dt rs multiplier shift :
  f64_finite rs = true ->
  decompose dt rs = inr (multiplier, shift) ->
  (multiplier = 0 <-> exists s, rs = S754_zero s) /\
  (multiplier <> 0 -> 2 ^ (width dt - 2) <= Z.abs multiplier).
Proof.
  intros Hfin Hdec.
  destruct (decompose_inr _ _ _ _ Hdec) as [Hdt _].
  assert (exists ms, multiplier_shift dt = Some ms) as [ms Hms]
    by (destruct Hdt as [-> | ->]; cbn; eauto).
  destruct rs as [s | s | | s m e]; cbn in Hfin; try discriminate.
  - rewrite (decompose_zero dt ms s Hms) in Hdec. injection Hdec as <- <-.
    split; [split; eauto | congruence].
  - destruct (decompose_finite dt ms s m e Hms Hfin) as (p & _ & Hd & _ & Heq).
    rewrite Heq in Hdec. injection Hdec as <- <-.
    pose proof (truncated_mantissa_range p ms Hd (supported_shift _ _ Hms)) as Hr.
    pose proof (pow2_gt_0 (ms - 1)).
    rewrite (supported_width _ _ Hms). replace (ms + 1 - 2) with (ms - 1) by lia.
    assert (0 <= ms - 1) by (destruct (supported_shift _ _ Hms); lia).
    split; [split |].
    + destruct s; cbn [cond_Zopp]; lia.
    + intros [s' [=]].
    + intros _. destruct s; cbn [cond_Zopp]; lia.
Qed.

Lemma decompose_multiplier_zero_witness :
  (1073741824 = 0 <-> exists s, S754_finite false 1 (-1074) = S754_zero s) /\
  (1073741824 <> 0 ->
   2 ^ (width np_int32 - 2) <= Z.abs (1073741824)).
Proof.
  apply (decompose_multiplier_zero np_int32 (S754_finite false 1 (-1074))
           (1073741824) (-1073)); vm_compute; reflexivity.
Defined.
